(** * The streaming analysis pipeline of the YouTube idea generator

    A shallow embedding of the route handler [POST] (app/api/analyze/route.ts)
    and of the collaborators it imports (lib/youtube.ts, lib/news.ts,
    lib/reddit.ts), together with the consumer's step table (app/page.tsx).

    Conventions of the model.
    - An awaited promise is represented by the outcome it settles to
      ([Resolved] or [Rejected] with an [Error] object); every awaited call
      is taken to settle.
    - The consumer reads the stream to its end: the controller is closed by
      [start] only, never cancelled from outside.
    - The frame handed to [JSON.stringify] in [sendSSE] is kept structured;
      the text encoding [data: <JSON>\n\n] is not modelled.
    - Upstream HTTP servers are oracles: any answer or failure is allowed.
    - A [string[]] of topics is a [list string]; numbers in JSON bodies are
      integers; strings are compared and lower-cased as ASCII.
    - lib/openai.ts is kept abstract (the claims do not look inside it). *)

From Stdlib Require Import Ascii String.
From stdpp Require Import base option list strings pretty sorting.

Set Default Proof Using "Type".
Open Scope string_scope.
Open Scope list_scope.

(** ** JavaScript values, errors and promises *)

(** The result of [JSON.parse] on a request body, plus [undefined] for a
    property that is absent. *)
#[local] Unset Elimination Schemes.
Inductive JsValue :=
  | JUndefined
  | JNull
  | JBool (b : bool)
  | JNumber (n : Z)
  | JString (s : string)
  | JArray (items : list JsValue)
  | JObject (fields : list (string * JsValue)).
#[local] Set Elimination Schemes.

(** An [Error] object: its [message], and for an axios error the status of
    the response it carries ([error.response?.status]) and its [code]. *)
Record JsError := {
  message : string;
  response_status : option nat;
  code : option string;
}.

Definition Error (msg : string) : JsError :=
  {| message := msg; response_status := None; code := None |}.

(** The engine's error for a property read on [undefined] or [null]. *)
Definition TypeError (prop : string) : JsError :=
  Error ("Cannot read properties of undefined (reading '" +:+ prop +:+ "')").

(** A settled promise. *)
Inductive Outcome (A : Type) :=
  | Resolved (a : A)
  | Rejected (e : JsError).
Arguments Resolved {A} a.
Arguments Rejected {A} e.

(** Completion of a block of code: normal, or by a thrown error. *)
Inductive Result (A : Type) :=
  | Normal (a : A)
  | Thrown (e : JsError).
Arguments Normal {A} a.
Arguments Thrown {A} e.

(** [!v] is [negb (truthy v)]. *)
Definition truthy (v : JsValue) : bool :=
  match v with
  | JUndefined | JNull => false
  | JBool b => b
  | JNumber n => negb (bool_decide (n = 0%Z))
  | JString s => negb (bool_decide (s = ""))
  | JArray _ | JObject _ => true
  end.

Definition typeof (v : JsValue) : string :=
  match v with
  | JUndefined => "undefined"
  | JNull => "object"
  | JBool _ => "boolean"
  | JNumber _ => "number"
  | JString _ => "string"
  | JArray _ | JObject _ => "object"
  end.

Fixpoint assoc (k : string) (fields : list (string * JsValue)) : JsValue :=
  match fields with
  | [] => JUndefined
  | (k', v) :: rest => if bool_decide (k = k') then v else assoc k rest
  end.

(** [const { k } = v]: a property read, which throws on [null] and
    [undefined] and gives [undefined] where the property is absent. *)
Definition destructure (k : string) (v : JsValue) : Result JsValue :=
  match v with
  | JUndefined | JNull => Thrown (TypeError k)
  | JObject fields => Normal (assoc k fields)
  | _ => Normal JUndefined
  end.

(** The string a value narrowed by [typeof v === 'string'] stands for. *)
Definition as_string (v : JsValue) : string :=
  match v with JString s => s | _ => "" end.

(** [s || d] on strings. *)
Definition or_else (s d : string) : string :=
  if bool_decide (s = "") then d else s.

(** ** Data carried by the events *)

Record YouTubeVideo := {
  id : string;
  title : string;
  description : string;
  publishedAt : string;
  thumbnail : string;
}.

Record NewsArticle := {
  news_title : string;
  news_url : string;
  source : string;
}.

Record RedditPost := {
  post_title : string;
  url : string;
  subreddit : string;
}.

Record VideoIdea := {
  idea_title : string;
  thumbDesign : string;
  videoIdea : string;
}.

(** The optional [data] member of a progress payload. *)
Inductive StepData :=
  | VideoCount (videoCount : nat)
  | Topics (topics : list string)
  | News (news : list NewsArticle)
  | RedditPosts (redditPosts : list RedditPost)
  | VideoIdeas (videoIdeas : list VideoIdea).

(** The second argument of [sendSSE]. *)
Inductive Payload :=
  | ErrorEvent (msg : string)
  | ProgressEvent (step : string) (msg : string) (data : option StepData)
  | PipelineResult (topics : list string) (news : list NewsArticle)
      (redditPosts : list RedditPost) (videoIdeas : list VideoIdea).

(** The object [{ type, data }] that [sendSSE] serialises. *)
Record Frame := {
  type : string;
  data : Payload;
}.

(** ** The stream controller and the run of one request *)

(** The five imported collaborators. *)
Inductive Collaborator :=
  | FetchChannelVideos
  | AnalyzeTopics
  | FetchRelevantNews
  | SearchRedditPosts
  | GenerateVideoIdeas.

#[global] Instance Collaborator_eq_dec : EqDecision Collaborator.
Proof. solve_decision. Defined.

(** What [start] does to the outside, in order: a frame enqueued on the
    [ReadableStreamDefaultController], the stream closed, a collaborator
    called (the calls are a ghost log, the stream does not see them). *)
Inductive Event :=
  | Enqueued (f : Frame)
  | Closed
  | Invoked (c : Collaborator).

(** The run of one request: its events, oldest first. *)
Definition Run := list Event.

Definition initial : Run := [].

Definition is_closed (e : Event) : bool :=
  match e with Closed => true | _ => false end.

(** The state of the controller after a run. *)
Definition closed (r : Run) : bool := existsb is_closed r.

(** The frames the consumer reads. *)
Definition frames (r : Run) : list Frame :=
  omap (fun e => match e with Enqueued f => Some f | _ => None end) r.

(** The collaborators invoked. *)
Definition calls (r : Run) : list Collaborator :=
  omap (fun e => match e with Invoked c => Some c | _ => None end) r.

(** Code of [start]: it may throw, and it extends the run. *)
Definition M (A : Type) : Type := Run -> Result A * Run.

#[global] Instance M_ret : MRet M := fun A a r => (Normal a, r).
#[global] Instance M_bind : MBind M := fun A B f m r =>
  match m r with
  | (Normal a, r') => f a r'
  | (Thrown e, r') => (Thrown e, r')
  end.

Definition throw {A} (e : JsError) : M A := fun r => (Thrown e, r).

Definition lift {A} (x : Result A) : M A := fun r => (x, r).

(** [try { body } catch (error) { handler }] *)
Definition try_catch {A} (body : M A) (handler : JsError -> M A) : M A :=
  fun r =>
    match body r with
    | (Normal a, r') => (Normal a, r')
    | (Thrown e, r') => handler e r'
    end.

(** [await p] *)
Definition await {A} (p : Outcome A) : M A :=
  match p with
  | Resolved a => mret a
  | Rejected e => throw e
  end.

(** Calling an async collaborator gives its promise; the call is logged. *)
Definition invoke {A} (c : Collaborator) (p : Outcome A) : M (Outcome A) :=
  fun r => (Normal p, r ++ [Invoked c]).

Definition InvalidState : JsError :=
  Error "Invalid state: Controller is already closed".

(** [controller.enqueue(chunk)]: a [TypeError] once the stream is closed. *)
Definition enqueue (f : Frame) : M unit :=
  fun r =>
    if closed r then (Thrown InvalidState, r)
    else (Normal (), r ++ [Enqueued f]).

(** [controller.close()]: a [TypeError] when called a second time. *)
Definition close : M unit :=
  fun r =>
    if closed r then (Thrown InvalidState, r)
    else (Normal (), r ++ [Closed]).

(** Helper function to send SSE message *)
Definition sendSSE (type : string) (data : Payload) : M unit :=
  enqueue {| type := type; data := data |}.

(** Which of the two stage-4 promises settled first. *)
Inductive Settled := NewsFirst | RedditFirst.

(** [Promise.all([p, q])]: the pair of values when both resolve; otherwise it
    rejects with the reason of the promise that rejected first. *)
Definition Promise_all {A B} (first : Settled) (p : Outcome A) (q : Outcome B)
  : Outcome (A * B) :=
  match p, q with
  | Resolved a, Resolved b => Resolved (a, b)
  | Rejected e, Resolved _ => Rejected e
  | Resolved _, Rejected e => Rejected e
  | Rejected e1, Rejected e2 =>
      match first with NewsFirst => Rejected e1 | RedditFirst => Rejected e2 end
  end.

(** ** The orchestrator *)

(** The imports of route.ts, as the handler sees them: async functions. *)
Record Collaborators := {
  fetchChannelVideos : string -> Outcome (list YouTubeVideo);
  analyzeTopics : list YouTubeVideo -> Outcome (list string);
  fetchRelevantNews : list string -> Outcome (list NewsArticle);
  searchRedditPosts : list string -> Outcome (list RedditPost);
  generateVideoIdeas :
    list string -> list NewsArticle -> list RedditPost -> list string ->
    Outcome (list VideoIdea);
}.

Section Orchestrator.
Variable lib : Collaborators.
Variable first : Settled.

(** The part of [start] after the request has been validated. *)
Definition pipeline (url : string) : M unit :=
  (* Step 1: Fetch last 10 videos from YouTube channel *)
  sendSSE "progress"
    (ProgressEvent "fetching_videos" "Fetching YouTube videos..." None);;
  videos ← invoke FetchChannelVideos (fetchChannelVideos lib url) ≫= await;
  if bool_decide (length videos = 0) then
    sendSSE "error" (ErrorEvent "No videos found for this channel");;
    close
  else
    sendSSE "progress"
      (ProgressEvent "videos_fetched"
         ("Found " +:+ pretty (length videos) +:+ " videos")
         (Some (VideoCount (length videos))));;
    (* Step 2: Analyze topics using AI *)
    sendSSE "progress"
      (ProgressEvent "analyzing_topics" "Analyzing topics with AI..." None);;
    topics ← invoke AnalyzeTopics (analyzeTopics lib videos) ≫= await;
    sendSSE "progress"
      (ProgressEvent "topics_analyzed"
         ("Identified " +:+ pretty (length topics) +:+ " main topics")
         (Some (Topics topics)));;
    (* Step 3: Fetch relevant news (parallel with Reddit) *)
    sendSSE "progress"
      (ProgressEvent "fetching_news" "Fetching relevant news..." None);;
    newsPromise ← invoke FetchRelevantNews (fetchRelevantNews lib topics);
    (* Step 4: Search Reddit posts (parallel with news) *)
    sendSSE "progress"
      (ProgressEvent "searching_reddit" "Searching Reddit discussions..." None);;
    redditPromise ← invoke SearchRedditPosts (searchRedditPosts lib topics);
    (* Wait for both to complete *)
    both ← await (Promise_all first newsPromise redditPromise);
    let news := both.1 in
    let redditPosts := both.2 in
    sendSSE "progress"
      (ProgressEvent "news_fetched"
         ("Found " +:+ pretty (length news) +:+ " news articles")
         (Some (News news)));;
    sendSSE "progress"
      (ProgressEvent "reddit_searched"
         ("Found " +:+ pretty (length redditPosts) +:+ " Reddit discussions")
         (Some (RedditPosts redditPosts)));;
    (* Step 5: Generate video ideas *)
    sendSSE "progress"
      (ProgressEvent "generating_ideas" "Generating video ideas with AI..." None);;
    let sampleTitles := title <$> videos in
    videoIdeas ←
      invoke GenerateVideoIdeas
        (generateVideoIdeas lib topics news redditPosts sampleTitles) ≫= await;
    sendSSE "progress"
      (ProgressEvent "ideas_generated" "Generated 5 video ideas"
         (Some (VideoIdeas videoIdeas)));;
    (* Send final result *)
    sendSSE "complete" (PipelineResult topics news redditPosts videoIdeas);;
    close.

(** [start(controller)], given what [request.json()] settles to. *)
Definition start (json : Outcome JsValue) : M unit :=
  try_catch
    (body ← await json;
     url ← lift (destructure "url" body);
     if negb (truthy url) || negb (bool_decide (typeof url = "string")) then
       sendSSE "error" (ErrorEvent "YouTube channel URL is required");;
       close
     else
       pipeline (as_string url))
    (fun error =>
       sendSSE "error"
         (ErrorEvent
            (or_else (message error)
               "An error occurred while analyzing the channel"));;
       close).

(** The handler: the stream's underlying source is run from a fresh
    controller.  The first component tells whether [start] itself threw. *)
Definition POST (json : Outcome JsValue) : Result unit * Run :=
  start json initial.

End Orchestrator.

(** ** HTTP through axios *)

#[global] Instance Result_ret : MRet Result := fun A a => Normal a.
#[global] Instance Result_bind : MBind Result := fun A B f x =>
  match x with
  | Normal a => f a
  | Thrown e => Thrown e
  end.

(** [try { body } catch (error) { handler }] for code without effects. *)
Definition try_ {A} (body : Result A) (handler : JsError -> Result A) : Result A :=
  match body with
  | Normal a => Normal a
  | Thrown e => handler e
  end.

(** The promise of an async function whose body completes with [x]. *)
Definition settle {A} (x : Result A) : Outcome A :=
  match x with
  | Normal a => Resolved a
  | Thrown e => Rejected e
  end.

(** [await p] inside an async function of the library. *)
Definition awaited {A} (p : Outcome A) : Result A :=
  match p with
  | Resolved a => Normal a
  | Rejected e => Thrown e
  end.

(** What an upstream server does with one request: it answers with a status
    and a body, or no answer arrives (network failure, timeout). *)
Inductive Http (B : Type) :=
  | Answer (status : nat) (body : B)
  | NoAnswer (code : option string) (msg : string).
Arguments Answer {B} status body.
Arguments NoAnswer {B} code msg.

(** The body of a JSON answer as far as the code reads it: [Garbled] stands
    for a body on which the first property read throws. *)
Inductive Body (A : Type) :=
  | Garbled
  | Json (a : A).
Arguments Garbled {A}.
Arguments Json {A} a.

Record Response (B : Type) := {
  status : nat;
  body : B;
}.
Arguments status {B} _.
Arguments body {B} _.

(** axios rejects an answer whose status [validateStatus] refuses. *)
Definition axios_get {B} (validateStatus : nat -> bool) (h : Http B)
  : Result (Response B) :=
  match h with
  | Answer st b =>
      if validateStatus st then Normal {| status := st; body := b |}
      else Thrown
        {| message := "Request failed with status code " +:+ pretty st;
           response_status := Some st;
           code := if bool_decide (400 <= st < 500) then Some "ERR_BAD_REQUEST"
                   else if bool_decide (500 <= st < 600) then Some "ERR_BAD_RESPONSE"
                   else None |}
  | NoAnswer c m =>
      Thrown {| message := m; response_status := None; code := c |}
  end.

(** The default [validateStatus] of axios. *)
Definition status_2xx (st : nat) : bool :=
  bool_decide (200 <= st) && bool_decide (st < 300).

(** [response.data] of a JSON body: reading into a garbled one throws. *)
Definition read {A} (prop : string) (b : Body A) : Result A :=
  match b with
  | Garbled => Thrown (TypeError prop)
  | Json a => Normal a
  end.

(** A member that must be an object for the next read to succeed. *)
Definition member {A} (prop : string) (o : option A) : Result A :=
  match o with
  | None => Thrown (TypeError prop)
  | Some a => Normal a
  end.

(** Truthiness of an optional string ([undefined] and [""] are falsy). *)
Definition present (o : option string) : bool :=
  match o with
  | Some s => negb (bool_decide (s = ""))
  | None => false
  end.

(** ** Strings *)

Definition in_range (lo hi : nat) (c : ascii) : bool :=
  let n := Ascii.nat_of_ascii c in (lo <=? n)%nat && (n <=? hi)%nat.

(** The character class [[a-zA-Z0-9_-]]. *)
Definition word_char (c : ascii) : bool :=
  in_range 97 122 c || in_range 65 90 c || in_range 48 57 c
  || bool_decide (c = "_"%char) || bool_decide (c = "-"%char).

Fixpoint strip_prefix (lit s : string) : option string :=
  match lit, s with
  | EmptyString, _ => Some s
  | String a lit', String b s' =>
      if bool_decide (a = b) then strip_prefix lit' s' else None
  | String _ _, EmptyString => None
  end.

(** The longest prefix of [s] made of class characters. *)
Fixpoint span (s : string) : string :=
  match s with
  | String c s' => if word_char c then String c (span s') else EmptyString
  | EmptyString => EmptyString
  end.

(** [s.match(/<lit>([a-zA-Z0-9_-]+)/)]: the capture group of the leftmost
    match, the group being greedy. *)
Fixpoint match_capture (lit s : string) : option string :=
  let here :=
    match strip_prefix lit s with
    | Some rest => let cap := span rest in
                   if bool_decide (cap = "") then None else Some cap
    | None => None
    end in
  match here, s with
  | Some cap, _ => Some cap
  | None, String _ s' => match_capture lit s'
  | None, EmptyString => None
  end.

(** [s.toLowerCase()], on ASCII letters. *)
Definition lower_char (c : ascii) : ascii :=
  if in_range 65 90 c then Ascii.ascii_of_nat (Ascii.nat_of_ascii c + 32) else c.

Fixpoint toLowerCase (s : string) : string :=
  match s with
  | String c s' => String (lower_char c) (toLowerCase s')
  | EmptyString => EmptyString
  end.

(** [s.includes(t)] *)
Fixpoint includes (s t : string) : bool :=
  match strip_prefix t s with
  | Some _ => true
  | None => match s with String _ s' => includes s' t | EmptyString => false end
  end.

(** [s.replace(c, '')] for a one-character pattern: the first occurrence. *)
Fixpoint remove_first (c : ascii) (s : string) : string :=
  match s with
  | String a s' => if bool_decide (a = c) then s' else String a (remove_first c s')
  | EmptyString => EmptyString
  end.

(** [l.join(sep)] *)
Fixpoint join (sep : string) (l : list string) : string :=
  match l with
  | [] => ""
  | [s] => s
  | s :: rest => s +:+ sep +:+ join sep rest
  end.

(** ** lib/youtube.ts *)

Module YouTube.

Inductive IdentifierType := Id | Username | Handle.

#[global] Instance IdentifierType_eq_dec : EqDecision IdentifierType.
Proof. solve_decision. Defined.

Record Identifier := {
  kind : IdentifierType;
  value : string;
}.

(** Bodies of the YouTube Data API, as far as the code reads them. *)
Record ChannelId := { channel_id : option string }.

Record Snippet := {
  customUrl : option string;
  snippet_title : option string;
  channelId : option string;
}.

Record SearchItem := { search_snippet : option Snippet }.

(** [contentDetails.relatedPlaylists], when that path exists, and its
    [uploads] member. *)
Record ChannelDetails := { relatedPlaylists : option (option string) }.

(** [thumbnails.high?.url], and [thumbnails.default] when it exists with
    its [url]. *)
Record Thumbnails := {
  high_url : option string;
  default_url : option (option string);
}.

Record VideoSnippet := {
  resourceId : option string;
  video_title : string;
  video_description : string;
  video_publishedAt : string;
  thumbnails : option Thumbnails;
}.

Record PlaylistItem := { item_snippet : option VideoSnippet }.

(** [{ items }] of a list answer; [None] when the member is absent. *)
Definition Listing (A : Type) : Type := Body (option (list A)).

(** The environment variable and the upstream API, one oracle per call. *)
Record World := {
  YOUTUBE_API_KEY : option string;
  channels_forUsername : string -> Http (Listing ChannelId);
  channels_forHandle : string -> Http (Listing ChannelId);
  search_channels : string -> Http (Listing SearchItem);
  channels_contentDetails : string -> Http (Listing ChannelDetails);
  playlistItems : option string -> Http (Listing PlaylistItem);
}.

Definition patterns : list (string * IdentifierType) :=
  [ ("youtube.com/channel/", Id);
    ("youtube.com/c/", Username);
    ("youtube.com/user/", Username);
    ("youtube.com/@", Handle) ].

(** Extract channel ID or username from YouTube URL *)
Fixpoint first_match (ps : list (string * IdentifierType)) (url : string)
  : option Identifier :=
  match ps with
  | [] => None
  | (regex, ty) :: rest =>
      match match_capture regex url with
      | Some m => Some {| kind := ty; value := m |}
      | None => first_match rest url
      end
  end.

Definition extractChannelIdentifier (url : string) : option Identifier :=
  first_match patterns url.

(** [items && items.length > 0], then the first item. *)
Definition first_item {A} (items : option (list A)) : option A :=
  match items with
  | Some (x :: _) => Some x
  | _ => None
  end.

Section WithWorld.
Variable w : World.

(** [item => customUrl?.toLowerCase() === `@${h}` || title?.toLowerCase().includes(h)] *)
Definition exact (forHandle : string) (item : SearchItem) : Result bool :=
  s ← member "customUrl" (search_snippet item);
  mret
    (match customUrl s with
     | Some c => bool_decide (toLowerCase c = "@" +:+ toLowerCase forHandle)
     | None => false
     end
     || match snippet_title s with
        | Some t => includes (toLowerCase t) (toLowerCase forHandle)
        | None => false
        end).

(** [items.find(pred)] for a predicate that may throw. *)
Fixpoint find (pred : SearchItem -> Result bool) (items : list SearchItem)
  : Result (option SearchItem) :=
  match items with
  | [] => mret None
  | item :: rest =>
      b ← pred item;
      if b : bool then mret (Some item) else find pred rest
  end.

(** The [if (forHandle)] block of [getChannelId]; [None] is falling
    through to [return null]. *)
Definition by_handle (forHandle : string) : Result (option string) :=
  direct ← try_
    (handleResponse ← axios_get status_2xx (channels_forHandle w forHandle);
     items ← read "items" (body handleResponse);
     mret (channel_id <$> first_item items))
    (fun _ => mret None);
  match direct with
  | Some found => mret found
  | None =>
      (* Fallback: use search API *)
      searchResponse ← axios_get status_2xx (search_channels w forHandle);
      items ← read "items" (body searchResponse);
      match items with
      | Some (item0 :: rest) =>
          exactMatch ← find (exact forHandle) (item0 :: rest);
          match exactMatch with
          | Some m => s ← member "channelId" (search_snippet m); mret (channelId s)
          | None => s ← member "channelId" (search_snippet item0); mret (channelId s)
          end
      | _ => mret None
      end
  end.

(** Get channel ID from username or handle using YouTube Data API *)
Definition getChannelId (identifier : string) (ty : IdentifierType)
  : Outcome (option string) :=
  settle
    (if negb (present (YOUTUBE_API_KEY w)) then
       Thrown (Error "YOUTUBE_API_KEY is not set")
     else
       try_
         (let forUsername :=
            if bool_decide (ty = Username) then Some identifier else None in
          let forHandle :=
            if bool_decide (ty = Handle)
            then Some (remove_first "@"%char identifier) else None in
          (* Try username first *)
          byName ←
            (if present forUsername then
               response ← axios_get status_2xx
                            (channels_forUsername w (default "" forUsername));
               items ← read "items" (body response);
               mret (channel_id <$> first_item items)
             else mret None);
          match byName with
          | Some found => mret found
          | None =>
              if present forHandle
              then by_handle (default "" forHandle)
              else mret None
          end)
         (fun _ => mret None)).

(** Reading one playlist item into a [YouTubeVideo]. *)
Definition to_video (item : PlaylistItem) : Result YouTubeVideo :=
  s ← member "resourceId" (item_snippet item);
  videoId ← member "videoId" (resourceId s);
  th ← member "high" (thumbnails s);
  thumb ←
    (if present (high_url th) then mret (default "" (high_url th))
     else d ← member "url" (default_url th); mret (default "" d));
  mret {| id := videoId; title := video_title s;
          description := video_description s;
          publishedAt := video_publishedAt s; thumbnail := thumb |}.

Fixpoint map_items (items : list PlaylistItem) : Result (list YouTubeVideo) :=
  match items with
  | [] => mret []
  | item :: rest =>
      v ← to_video item;
      vs ← map_items rest;
      mret (v :: vs)
  end.

(** Fetch last 10 videos from a YouTube channel *)
Definition fetchChannelVideos (url : string) : Outcome (list YouTubeVideo) :=
  settle
    (if negb (present (YOUTUBE_API_KEY w)) then
       Thrown (Error "YOUTUBE_API_KEY is not set")
     else
       match extractChannelIdentifier url with
       | None => Thrown (Error "Invalid YouTube channel URL")
       | Some identifier =>
           (* If it's a username or handle, get the channel ID first *)
           channelId ←
             (if negb (bool_decide (kind identifier = Id)) then
                resolvedId ← awaited (getChannelId (value identifier) (kind identifier));
                if negb (present resolvedId)
                then Thrown (Error "Could not resolve channel ID from URL")
                else mret (default "" resolvedId)
              else mret (value identifier));
           try_
             ((* Get uploads playlist ID *)
              channelResponse ←
                axios_get status_2xx (channels_contentDetails w channelId);
              items ← read "items" (body channelResponse);
              match first_item items with
              | None => Thrown (Error "Channel not found")
              | Some item0 =>
                  uploadsPlaylistId ← member "uploads" (relatedPlaylists item0);
                  (* Get videos from uploads playlist *)
                  playlistResponse ←
                    axios_get status_2xx (playlistItems w uploadsPlaylistId);
                  listing ← read "items" (body playlistResponse);
                  entries ← member "map" listing;
                  map_items entries
              end)
             (fun error =>
                if bool_decide (response_status error = Some 403) then
                  Thrown (Error "YouTube API quota exceeded or invalid API key")
                else if bool_decide (response_status error = Some 404) then
                  Thrown (Error "Channel not found")
                else
                  Thrown (Error ("Failed to fetch videos: " +:+ message error)))
       end).

End WithWorld.

End YouTube.

(** ** lib/news.ts *)

Module NewsApi.

(** One entry of [response.data.articles]; [source_name] is [source?.name]. *)
Record Article := {
  article_title : option string;
  article_url : option string;
  source_name : option string;
}.

Record World := {
  NEWS_API_KEY : option string;
  everything : string -> Http (Body (option (list Article)));
}.

Definition to_news (article : Article) : NewsArticle :=
  {| news_title := default "" (article_title article);
     news_url := default "" (article_url article);
     source := or_else (default "" (source_name article)) "Unknown" |}.

(** Fetch latest news relevant to the topics *)
Definition fetchRelevantNews (w : World) (topics : list string)
  : Outcome (list NewsArticle) :=
  settle
    (* If no NewsAPI key, ... return empty *)
    (if negb (present (NEWS_API_KEY w)) then mret []
     else
       try_
         ((* Search for news on the main topics *)
          let mainTopic := or_else (default "" (head topics)) (join " " topics) in
          response ← axios_get status_2xx (everything w mainTopic);
          articles ← read "articles" (body response);
          match articles with
          | Some l =>
              mret (to_news <$>
                      take 5 (filter
                                (fun a => present (article_title a)
                                          && present (article_url a) = true) l))
          | None => mret []
          end)
         ((* Return empty array on error - don't fail the whole process *)
          fun _ => mret [])).

End NewsApi.

(** ** lib/reddit.ts *)

(** [new Map(entries)] as the list of its entries in iteration order: a key
    keeps the place of its first insertion and takes the last value set. *)
Fixpoint Map_set {V} (k : string) (v : V) (m : list (string * V)) : list (string * V) :=
  match m with
  | [] => [(k, v)]
  | (k', v') :: rest =>
      if bool_decide (k = k') then (k, v) :: rest else (k', v') :: Map_set k v rest
  end.

Definition Map_new {V} (entries : list (string * V)) : list (string * V) :=
  foldl (fun m kv => Map_set kv.1 kv.2 m) [] entries.

Definition values {V} (m : list (string * V)) : list V := m.*2.

(** Remove duplicates and limit to 10 *)
Definition uniquePosts (allPosts : list RedditPost) : list RedditPost :=
  take 10 (values (Map_new ((fun post => (url post, post)) <$> allPosts))).

(** The [topics] argument at run time, where the annotation [string[]] is
    erased: an array, or a value without a [slice] method ([undefined], say),
    on which the first statement of the outer [try] throws. *)
Inductive TopicsArg :=
  | TopicsArray (topics : list string)
  | TopicsNotArray.

Definition slice_topics (n : nat) (arg : TopicsArg) : Result (list string) :=
  match arg with
  | TopicsArray topics => Normal (take n topics)
  | TopicsNotArray => Thrown (TypeError "slice")
  end.

(** One entry of [response.data.data.children]. *)
Record ChildData := {
  child_title : string;
  permalink : string;
  child_subreddit : string;
  over_18 : bool;
}.

Record Child := { child_data : option ChildData }.

(** [response.data?.data?.children]: absent ([Json None]), an array, or (as
    [Garbled]) some other truthy value, on which [filter] throws. *)
Definition Children : Type := Body (option (list Child)).

Definition to_post (d : ChildData) : RedditPost :=
  {| post_title := child_title d;
     url := "https://www.reddit.com" +:+ permalink d;
     subreddit := child_subreddit d |}.

(** [children.filter(child => child.data && !child.data.over_18).map(...)] *)
Definition posts_of (children : list Child) : list RedditPost :=
  to_post <$>
    omap (fun child =>
            match child_data child with
            | Some d => if over_18 d then None else Some d
            | None => None
            end) children.

Module Reddit.

(** Reddit's answer to the [n]-th request of one search, sent to
    [endpoint] with query [topic]. *)
Record World := {
  search : nat -> string -> string -> Http Children;
}.

(** Try both new and old Reddit endpoints as fallback *)
Definition endpoints : list string :=
  [ "https://www.reddit.com/search.json";
    "https://old.reddit.com/search.json" ].

Section WithWorld.
Variable w : World.

(** The [try] block of one attempt: [Some posts] when it reaches
    [break], [None] when it goes on to the next endpoint. *)
Definition attempt (n : nat) (endpoint topic : string)
  : Result (option (list RedditPost)) :=
  response ← axios_get (fun st => bool_decide (st < 500)) (search w n endpoint topic);
  (* Check for rate limiting or blocking *)
  if bool_decide (status response = 403) then mret None
  else if bool_decide (status response = 429) then mret None
  else
    children ← read "filter" (body response);
    match children with
    | Some l => mret (Some (posts_of l))
    | None => mret None
    end.

(** The loop over the endpoints for one topic.  Every branch of the
    [catch] only logs and goes on to the next endpoint. *)
Fixpoint try_endpoints (topic : string) (es : list string)
    (st : list RedditPost * nat) : list RedditPost * nat :=
  match es with
  | [] => st
  | endpoint :: rest =>
      match attempt st.2 endpoint topic with
      | Normal (Some posts) => (st.1 ++ posts, S st.2)
      | Normal None | Thrown _ => try_endpoints topic rest (st.1, S st.2)
      end
  end.

(** Search Reddit for posts related to the topics: the outer [try]. *)
Definition search_all (arg : TopicsArg) : Result (list RedditPost) :=
  (* Limit to top 3 topics to avoid too many requests *)
  searchTerms ← slice_topics 3 arg;
  let allPosts :=
    (foldl (fun st topic => try_endpoints topic endpoints st) ([], 0) searchTerms).1 in
  mret (uniquePosts allPosts).

Definition searchRedditPosts (arg : TopicsArg) : Outcome (list RedditPost) :=
  settle (try_ (search_all arg) (fun _ => mret [])).

(** A child the upstream sent in some answer. *)
Definition served (d : ChildData) : Prop :=
  exists n endpoint topic st l,
    search w n endpoint topic = Answer st (Json (Some l))
    /\ {| child_data := Some d |} ∈ l.

End WithWorld.

End Reddit.

(** The [searchRedditPosts] that follows lib/news.ts in the sources: one
    endpoint, one request per topic. *)
Module RedditLegacy.

Record World := {
  search : nat -> string -> Http Children;
}.

Section WithWorld.
Variable w : World.

Definition attempt (n : nat) (topic : string) : Result (list RedditPost) :=
  response ← axios_get status_2xx (search w n topic);
  children ← read "filter" (body response);
  match children with
  | Some l => mret (posts_of l)
  | None => mret []
  end.

(** One turn of the loop: a failed request is logged and skipped. *)
Definition step (st : list RedditPost * nat) (topic : string)
  : list RedditPost * nat :=
  match attempt st.2 topic with
  | Normal posts => (st.1 ++ posts, S st.2)
  | Thrown _ => (st.1, S st.2)
  end.

Definition search_all (arg : TopicsArg) : Result (list RedditPost) :=
  searchTerms ← slice_topics 3 arg;
  let allPosts := (foldl step ([], 0) searchTerms).1 in
  mret (uniquePosts allPosts).

Definition searchRedditPosts (arg : TopicsArg) : Outcome (list RedditPost) :=
  settle (try_ (search_all arg) (fun _ => mret [])).

Definition served (d : ChildData) : Prop :=
  exists n topic st l,
    search w n topic = Answer st (Json (Some l))
    /\ {| child_data := Some d |} ∈ l.

End WithWorld.

End RedditLegacy.

(** ** app/page.tsx: the consumer's view of the steps *)

(** Define step order for proper display *)
Definition stepOrder : list string :=
  [ "starting"; "fetching_videos"; "videos_fetched"; "analyzing_topics";
    "topics_analyzed"; "fetching_news"; "searching_reddit"; "news_fetched";
    "reddit_searched"; "generating_ideas"; "ideas_generated" ].

(** [l.indexOf(s)], with [-1] for a string that is not in [l]. *)
Fixpoint indexOf (s : string) (l : list string) : Z :=
  match l with
  | [] => (-1)%Z
  | x :: rest =>
      if bool_decide (x = s) then 0%Z
      else let i := indexOf s rest in
           if bool_decide (i = (-1)%Z) then (-1)%Z else (i + 1)%Z
  end.

Record ProgressStep := {
  progress_step : string;
  progress_message : string;
  completed : bool;
}.

(** The list [handleSubmit] gives to [setProgress] before it sends the
    request. *)
Definition seeded_progress : list ProgressStep :=
  [ {| progress_step := "starting"; progress_message := "Starting analysis...";
       completed := false |} ].

(** ** The deployed composition *)

(** lib/openai.ts, kept abstract: what its two functions settle to. *)
Record OpenAI := {
  topics_of : list YouTubeVideo -> Outcome (list string);
  ideas_of :
    list string -> list NewsArticle -> list RedditPost -> list string ->
    Outcome (list VideoIdea);
}.

(** The imports of route.ts bound to the library code above. *)
Definition imports (yt : YouTube.World) (nw : NewsApi.World) (rd : Reddit.World)
    (ai : OpenAI) : Collaborators :=
  {| fetchChannelVideos := YouTube.fetchChannelVideos yt;
     analyzeTopics := topics_of ai;
     fetchRelevantNews := NewsApi.fetchRelevantNews nw;
     searchRedditPosts := fun topics => Reddit.searchRedditPosts rd (TopicsArray topics);
     generateVideoIdeas := ideas_of ai |}.

(** ** Vocabulary of the statements *)

Definition error_frame (msg : string) : Frame :=
  {| type := "error"; data := ErrorEvent msg |}.

Definition progress_frame (step msg : string) (d : option StepData) : Frame :=
  {| type := "progress"; data := ProgressEvent step msg d |}.

Definition complete_frame (topics : list string) (news : list NewsArticle)
    (redditPosts : list RedditPost) (videoIdeas : list VideoIdea) : Frame :=
  {| type := "complete"; data := PipelineResult topics news redditPosts videoIdeas |}.

(** A terminal event: an [error] frame with a message or a [complete] frame
    with a result. *)
Definition terminal (f : Frame) : Prop :=
  (exists msg, f = error_frame msg)
  \/ (exists topics news redditPosts videoIdeas,
        f = complete_frame topics news redditPosts videoIdeas).

(** An event before the end of the stream: a progress frame or a call. *)
Definition ongoing (ev : Event) : Prop :=
  match ev with
  | Enqueued f => exists step msg d, f = progress_frame step msg d
  | Closed => False
  | Invoked _ => True
  end.

(** The step an event announces, if it is a progress event. *)
Definition step_of (f : Frame) : option string :=
  match data f with
  | ProgressEvent step _ _ => Some step
  | _ => None
  end.

Definition progress_steps (r : Run) : list string := omap step_of (frames r).

(** The rank of a step in the consumer's table. *)
Definition rank (step : string) : Z := indexOf step stepOrder.

(** The steps the producer announces, in the order of its code. *)
Definition producer_steps : list string :=
  [ "fetching_videos"; "videos_fetched"; "analyzing_topics"; "topics_analyzed";
    "fetching_news"; "searching_reddit"; "news_fetched"; "reddit_searched";
    "generating_ideas"; "ideas_generated" ].

(** The body has a [url] member that passes the handler's check. *)
Definition valid_url (body : JsValue) (s : string) : Prop :=
  destructure "url" body = Normal (JString s) /\ s <> "".

Definition required_msg : string := "YouTube channel URL is required".
Definition no_videos_msg : string := "No videos found for this channel".
Definition default_msg : string := "An error occurred while analyzing the channel".

Definition fetching_videos_frame : Frame :=
  progress_frame "fetching_videos" "Fetching YouTube videos..." None.

(** A post made from a child the upstream served and did not mark adult. *)
Definition family_safe (served : ChildData -> Prop) (p : RedditPost) : Prop :=
  exists d, served d /\ over_18 d = false /\ p = to_post d.

(** ** Sample inputs *)

Definition sample_video (n : string) : YouTubeVideo :=
  {| id := n; title := "Video " +:+ n; description := ""; publishedAt := "";
     thumbnail := "" |}.

Definition sample_idea (n : string) : VideoIdea :=
  {| idea_title := "Idea " +:+ n; thumbDesign := ""; videoIdea := "" |}.

Definition sample_body : JsValue :=
  JObject [("url", JString "https://www.youtube.com/@example")].

(** Mocked collaborators: three videos, two topics, no news, no
    discussions, two ideas. *)
Definition mock : Collaborators :=
  {| fetchChannelVideos := fun _ =>
       Resolved [sample_video "1"; sample_video "2"; sample_video "3"];
     analyzeTopics := fun _ => Resolved ["Tech"; "AI"];
     fetchRelevantNews := fun _ => Resolved [];
     searchRedditPosts := fun _ => Resolved [];
     generateVideoIdeas := fun _ _ _ _ => Resolved [sample_idea "1"; sample_idea "2"] |}.

(** The same with a news search that throws. *)
Definition mock_news_throws : Collaborators :=
  {| fetchChannelVideos := fetchChannelVideos mock;
     analyzeTopics := analyzeTopics mock;
     fetchRelevantNews := fun _ => Rejected (Error "news service down");
     searchRedditPosts := searchRedditPosts mock;
     generateVideoIdeas := generateVideoIdeas mock |}.

(** The same with no video on the channel. *)
Definition mock_no_videos : Collaborators :=
  {| fetchChannelVideos := fun _ => Resolved [];
     analyzeTopics := analyzeTopics mock;
     fetchRelevantNews := fetchRelevantNews mock;
     searchRedditPosts := searchRedditPosts mock;
     generateVideoIdeas := generateVideoIdeas mock |}.

(** A YouTube API that refuses every request with status 403. *)
Definition quota_exceeded : YouTube.World :=
  {| YouTube.YOUTUBE_API_KEY := Some "key";
     YouTube.channels_forUsername := fun _ => Answer 403 Garbled;
     YouTube.channels_forHandle := fun _ => Answer 403 Garbled;
     YouTube.search_channels := fun _ => Answer 403 Garbled;
     YouTube.channels_contentDetails := fun _ => Answer 403 Garbled;
     YouTube.playlistItems := fun _ => Answer 403 Garbled |}.

(** A news API and a Reddit that cannot be reached. *)
Definition news_down : NewsApi.World :=
  {| NewsApi.NEWS_API_KEY := Some "key";
     NewsApi.everything := fun _ => NoAnswer (Some "ECONNREFUSED") "connect ECONNREFUSED" |}.

Definition reddit_down : Reddit.World :=
  {| Reddit.search := fun _ _ _ => NoAnswer (Some "ETIMEDOUT") "timeout of 10000ms exceeded" |}.

Definition openai_mock : OpenAI :=
  {| topics_of := analyzeTopics mock; ideas_of := generateVideoIdeas mock |}.

(** A Reddit that answers every request with the same two children, one
    of them marked adult. *)
Definition reddit_two : Reddit.World :=
  {| Reddit.search := fun _ _ _ =>
       Answer 200
         (Json (Some
            [ {| child_data := Some {| child_title := "a"; permalink := "/r/x/1";
                                       child_subreddit := "x"; over_18 := false |} |};
              {| child_data := Some {| child_title := "b"; permalink := "/r/x/2";
                                       child_subreddit := "x"; over_18 := true |} |} ])) |}.

(** The run of a request that goes through all five stages. *)
Definition completed_run (videos : list YouTubeVideo) (topics : list string)
    (news : list NewsArticle) (redditPosts : list RedditPost)
    (videoIdeas : list VideoIdea) : Run :=
  [ Enqueued fetching_videos_frame;
    Invoked FetchChannelVideos;
    Enqueued (progress_frame "videos_fetched"
                ("Found " +:+ pretty (length videos) +:+ " videos")
                (Some (VideoCount (length videos))));
    Enqueued (progress_frame "analyzing_topics" "Analyzing topics with AI..." None);
    Invoked AnalyzeTopics;
    Enqueued (progress_frame "topics_analyzed"
                ("Identified " +:+ pretty (length topics) +:+ " main topics")
                (Some (Topics topics)));
    Enqueued (progress_frame "fetching_news" "Fetching relevant news..." None);
    Invoked FetchRelevantNews;
    Enqueued (progress_frame "searching_reddit" "Searching Reddit discussions..." None);
    Invoked SearchRedditPosts;
    Enqueued (progress_frame "news_fetched"
                ("Found " +:+ pretty (length news) +:+ " news articles")
                (Some (News news)));
    Enqueued (progress_frame "reddit_searched"
                ("Found " +:+ pretty (length redditPosts) +:+ " Reddit discussions")
                (Some (RedditPosts redditPosts)));
    Enqueued (progress_frame "generating_ideas" "Generating video ideas with AI..." None);
    Invoked GenerateVideoIdeas;
    Enqueued (progress_frame "ideas_generated" "Generated 5 video ideas"
                (Some (VideoIdeas videoIdeas)));
    Enqueued (complete_frame topics news redditPosts videoIdeas);
    Closed ].

(** A YouTube API that knows one channel, [@example], with one upload. *)
Definition youtube_one_video : YouTube.World :=
  {| YouTube.YOUTUBE_API_KEY := Some "key";
     YouTube.channels_forUsername := fun _ => Answer 200 (Json (Some []));
     YouTube.channels_forHandle := fun h =>
       if bool_decide (h = "example")
       then Answer 200 (Json (Some [ {| YouTube.channel_id := Some "UC1" |} ]))
       else Answer 200 (Json None);
     YouTube.search_channels := fun _ => Answer 200 (Json None);
     YouTube.channels_contentDetails := fun _ =>
       Answer 200 (Json (Some [ {| YouTube.relatedPlaylists := Some (Some "UU1") |} ]));
     YouTube.playlistItems := fun _ =>
       Answer 200
         (Json (Some
            [ {| YouTube.item_snippet :=
                   Some {| YouTube.resourceId := Some "v1";
                           YouTube.video_title := "First video";
                           YouTube.video_description := "About it";
                           YouTube.video_publishedAt := "2024-01-01T00:00:00Z";
                           YouTube.thumbnails :=
                             Some {| YouTube.high_url := Some "https://i.ytimg.com/v1.jpg";
                                     YouTube.default_url := None |} |} |} ])) |}.

(** ** lib/openai.ts *)

(** [Array.isArray(v)] *)
Definition isArray (v : JsValue) : bool :=
  match v with JArray _ => true | _ => false end.

(** The elements of a value known to be an array. *)
Definition elements (v : JsValue) : list JsValue :=
  match v with JArray items => items | _ => [] end.

(** The whitespace of [\s], within ASCII. *)
Definition is_space (c : ascii) : bool :=
  in_range 9 13 c || bool_decide (c = " "%char).

(** [s.split(/\s+/)]: the pieces between the runs of whitespace; a string
    that starts or ends with whitespace has an empty first or last piece.
    [in_run] tells that the previous character was whitespace. *)
Fixpoint split_spaces (in_run : bool) (s : string) : list string :=
  match s with
  | EmptyString => [""]
  | String c s' =>
      if is_space c then
        if in_run then split_spaces true s' else "" :: split_spaces true s'
      else
        match split_spaces false s' with
        | piece :: rest => String c piece :: rest
        | [] => [String c ""]
        end
  end.

(** [new Set(xs)] as the list of its elements in iteration order: the first
    occurrence of each. *)
Definition Set_add (s : list string) (x : string) : list string :=
  if bool_decide (x ∈ s) then s else s ++ [x].

Definition Set_new (xs : list string) : list string := foldl Set_add [] xs.

Module OpenAIApi.

(** What [openai.chat.completions.create] and the reading of its answer come
    to: the call (or the path to the content) throws; the content is missing
    or empty; the content is not JSON, so that [JSON.parse] throws; or the
    content parses to a value.  The prompt is a function of the arguments, so
    the oracles take the arguments. *)
Inductive Reply :=
  | CallFailed (e : JsError)
  | NoContent
  | NotJson (e : JsError)
  | Parsed (v : JsValue).

Record World := {
  topics_reply : list YouTubeVideo -> Reply;
  ideas_reply :
    list string -> list NewsArticle -> list RedditPost -> list string -> Reply;
}.

(** From the call to [const parsed = JSON.parse(content)]. *)
Definition parsed_content (r : Reply) : Result JsValue :=
  match r with
  | CallFailed e => Thrown e
  | NoContent => Thrown (Error "No response from OpenAI")
  | NotJson e => Thrown e
  | Parsed v => Normal v
  end.

Definition commonWords : list string :=
  [ "the"; "a"; "an"; "and"; "or"; "but"; "in"; "on"; "at"; "to"; "for"; "of";
    "with"; "by"; "is"; "are"; "was"; "were"; "this"; "that"; "how"; "what";
    "why"; "when"; "where" ].

(** Fallback: extract keywords from titles *)
Definition keywords (videos : list YouTubeVideo) : list string :=
  let allText := join " " (title <$> videos) in
  let words := split_spaces false (toLowerCase allText) in
  Set_new (filter (fun w => 4 < String.length w /\ w ∉ commonWords) words).

(** Analyze videos to understand topics covered *)
Definition analyzeTopics (w : World) (videos : list YouTubeVideo)
  : Outcome (list JsValue) :=
  settle
    (try_
       (parsed ← parsed_content (topics_reply w videos);
        (* Handle both {topics: [...]} and [...] formats *)
        member_topics ← destructure "topics" parsed;
        let topics :=
          if truthy member_topics then member_topics
          else if isArray parsed then parsed else JArray [] in
        mret (if isArray topics then elements topics else []))
       (fun _ => mret (JString <$> take 8 (keywords videos)))).

(** One fallback idea. *)
Definition fallback_idea (topic : string) : JsValue :=
  JObject
    [ ("title", JString ("Latest Updates on " +:+ topic +:+ " - 2024"));
      ("thumbDesign",
       JString "Bold text on gradient background with relevant icon, bright colors to stand out");
      ("videoIdea",
       JString ("Create a comprehensive video covering the latest developments and trends in "
                +:+ topic +:+ ", including recent news and community discussions.")) ].

(** Generate video ideas based on topics, news, and Reddit discussions *)
Definition generateVideoIdeas (w : World) (topics : list string)
    (news : list NewsArticle) (redditPosts : list RedditPost)
    (sampleTitles : list string) : Outcome (list JsValue) :=
  settle
    (try_
       (parsed ← parsed_content (ideas_reply w topics news redditPosts sampleTitles);
        member_ideas ← destructure "ideas" parsed;
        let ideas := if truthy member_ideas then member_ideas else JArray [] in
        if negb (isArray ideas) || bool_decide (length (elements ideas) = 0) then
          Thrown (Error "Invalid response format")
        else mret (take 5 (elements ideas)))
       ((* Fallback ideas *)
        fun _ => mret (fallback_idea <$> take 5 topics))).

End OpenAIApi.

(** ** The text on the wire *)

Definition LF : ascii := "010"%char.

(** The [message] of [sendSSE] for a frame whose [JSON.stringify] is
    [json]: [data: <json>] and two line feeds. *)
Definition sse_message (json : string) : string :=
  "data: " +:+ json +:+ String LF (String LF "").

(** [s.split('\n')] *)
Fixpoint split_lines (s : string) : list string :=
  match s with
  | EmptyString => [""]
  | String c s' =>
      if bool_decide (c = LF) then "" :: split_lines s'
      else match split_lines s' with
           | line :: rest => String c line :: rest
           | [] => [String c ""]
           end
  end.

(** [s.slice(n)] *)
Fixpoint slice_from (n : nat) (s : string) : string :=
  match n, s with
  | 0, _ => s
  | S n', String _ s' => slice_from n' s'
  | S _, EmptyString => EmptyString
  end.

(** [s.startsWith(p)] *)
Definition startsWith (p s : string) : bool :=
  match strip_prefix p s with Some _ => true | None => false end.

(** [!s.trim()]: the string has nothing but whitespace. *)
Fixpoint blank (s : string) : bool :=
  match s with
  | EmptyString => true
  | String c s' => is_space c && blank s'
  end.

(** ** app/page.tsx: [handleSubmit] *)

Module Page.

(** An entry of the [progress] state: what the page shows of it, and the
    [data] member it keeps. *)
Record Entry := {
  shown : ProgressStep;
  entry_data : option StepData;
}.

Definition step (e : Entry) : string := progress_step (shown e).

(** The React state of the page. *)
Record State := {
  loading : bool;
  result : option Payload;
  error : option string;
  progress : list Entry;
}.

(** [updated.sort((a, b) => stepOrder.indexOf(a.step) - stepOrder.indexOf(b.step))]:
    the sort is stable, so it is the insertion of each entry before the
    first one of the same or a higher rank. *)
Fixpoint insert_entry (e : Entry) (l : list Entry) : list Entry :=
  match l with
  | [] => [e]
  | e' :: rest =>
      if bool_decide (indexOf (step e) stepOrder <= indexOf (step e') stepOrder)%Z
      then e :: e' :: rest
      else e' :: insert_entry e rest
  end.

Definition sort (l : list Entry) : list Entry := foldr insert_entry [] l.

(** [prev.findIndex(p => p.step === s)] *)
Definition findIndex (s : string) (prev : list Entry) : option nat :=
  fst <$> list_find (fun p => step p = s) prev.

(** The updater given to [setProgress] for a [progress] event. *)
Definition on_progress (s msg : string) (d : option StepData) (prev : list Entry)
  : list Entry :=
  let newStep :=
    {| shown := {| progress_step := s; progress_message := msg; completed := true |};
       entry_data := d |} in
  match findIndex s prev with
  | Some existing => sort (<[existing := newStep]> prev)
  | None => sort (prev ++ [newStep])
  end.

(** What the body of the inner [try] does with a parsed frame.  The [Error]
    thrown for an [error] frame is caught by the [catch] of that same [try],
    which only logs it.  A frame of type [progress] is read as sent by
    [sendSSE], with a progress payload. *)
Definition on_frame (f : Frame) (st : State) : State :=
  if bool_decide (type f = "progress") then
    match data f with
    | ProgressEvent s msg d =>
        {| loading := loading st; result := result st; error := error st;
           progress := on_progress s msg d (progress st) |}
    | _ => st
    end
  else if bool_decide (type f = "complete") then
    {| loading := false; result := Some (data f); error := error st;
       progress := progress st |}
  else st.

Section Reader.
(** [JSON.parse] on the text of a line, [None] when it throws. *)
Variable parse : string -> option Frame.

(** One turn of [for (const line of lines)]. *)
Definition on_line (st : State) (line : string) : State :=
  if startsWith "data: " line then
    match parse (slice_from 6 line) with
    | Some f => on_frame f st
    | None => st
    end
  else st.

(** One turn of [while (true)] for a chunk that was read: the state and the
    [buffer] after it. *)
Definition on_chunk (acc : State * string) (chunk : string) : State * string :=
  let lines := split_lines (acc.2 +:+ chunk) in
  (foldl on_line acc.1 (removelast lines), default "" (last lines)).

(** What [fetch] and the reading of the body come to. *)
Inductive Fetched :=
  | FetchFailed (e : JsError)
  | NotOk
  | NoBody
  | Body (chunks : list string) (failure : option JsError).

Definition started : State :=
  {| loading := true; result := None; error := None;
     progress := (fun p => {| shown := p; entry_data := None |}) <$> seeded_progress |}.

Definition failed (msg : string) (st : State) : State :=
  {| loading := false; result := result st; error := Some msg;
     progress := progress st |}.

(** [handleSubmit] with the text [url] of the input field, from the state
    [st] of the page. *)
Definition handleSubmit (url : string) (fetched : Fetched) (st : State) : State :=
  if blank url then st
  else
    match fetched with
    | FetchFailed e => failed (message e) started
    | NotOk => failed "Failed to start analysis" started
    | NoBody => failed "No response stream available" started
    | Body chunks failure =>
        let st' := (foldl on_chunk (started, "") chunks).1 in
        match failure with
        | Some e => failed (message e) st'
        | None => st'
        end
    end.

End Reader.

End Page.

(** The text of a whole run, given [JSON.stringify] on its frames. *)
Definition wire (stringify : Frame -> string) (r : Run) : string :=
  foldr (fun f rest => sse_message (stringify f) +:+ rest) "" (frames r).

(** ** Vocabulary of the further statements *)

(** The five collaborators in the order in which [start] calls them. *)
Definition call_order : list Collaborator :=
  [ FetchChannelVideos; AnalyzeTopics; FetchRelevantNews; SearchRedditPosts;
    GenerateVideoIdeas ].

(** The message of the terminal frame when a stage-4 promise rejects. *)
Definition rejection_msg (e : JsError) : string := or_else (message e) default_msg.

(** The string is made of characters of the class [[a-zA-Z0-9_-]]. *)
Fixpoint all_word (s : string) : bool :=
  match s with
  | EmptyString => true
  | String c s' => word_char c && all_word s'
  end.

(** The messages [fetchChannelVideos] throws as they stand. *)
Definition lookup_messages : list string :=
  [ "YOUTUBE_API_KEY is not set"; "Invalid YouTube channel URL";
    "Could not resolve channel ID from URL";
    "YouTube API quota exceeded or invalid API key"; "Channel not found" ].

(** The YouTube API of [youtube_one_video] with its three lookups out of
    reach. *)
Definition youtube_lookups_down : YouTube.World :=
  {| YouTube.YOUTUBE_API_KEY := YouTube.YOUTUBE_API_KEY youtube_one_video;
     YouTube.channels_forUsername := fun _ => NoAnswer None "Network Error";
     YouTube.channels_forHandle := fun _ => NoAnswer None "Network Error";
     YouTube.search_channels := fun _ => NoAnswer None "Network Error";
     YouTube.channels_contentDetails := YouTube.channels_contentDetails youtube_one_video;
     YouTube.playlistItems := YouTube.playlistItems youtube_one_video |}.

(** The number of requests one discussion search sends: the counter of the
    loop of [search_all]. *)
Definition reddit_requests (w : Reddit.World) (topics : list string) : nat :=
  (foldl (fun st topic => Reddit.try_endpoints w topic Reddit.endpoints st)
     ([], 0) (take 3 topics)).2.

Definition legacy_requests (w : RedditLegacy.World) (topics : list string) : nat :=
  (foldl (RedditLegacy.step w) ([], 0) (take 3 topics)).2.

(** A video made from a playlist item. *)
Definition video_of_item (v : YouTubeVideo) (item : YouTube.PlaylistItem) : Prop :=
  exists s, YouTube.item_snippet item = Some s
            /\ YouTube.resourceId s = Some (id v)
            /\ title v = YouTube.video_title s
            /\ description v = YouTube.video_description s
            /\ publishedAt v = YouTube.video_publishedAt s.

(** Every character of the string satisfies [P]. *)
Fixpoint all_chars (P : ascii -> bool) (s : string) : bool :=
  match s with
  | EmptyString => true
  | String c s' => P c && all_chars P s'
  end.



Definition openai_down : OpenAIApi.World :=
  {| OpenAIApi.topics_reply := fun _ => OpenAIApi.CallFailed (Error "Connection error.");
     OpenAIApi.ideas_reply := fun _ _ _ _ => OpenAIApi.CallFailed (Error "Connection error.") |}.

(** An OpenAI that answers with an object without the expected member. *)
Definition openai_off_format : OpenAIApi.World :=
  {| OpenAIApi.topics_reply := fun _ =>
       OpenAIApi.Parsed (JObject [("themes", JArray [JString "Tech"])]);
     OpenAIApi.ideas_reply := fun _ _ _ _ =>
       OpenAIApi.Parsed (JObject [("suggestions", JArray [])]) |}.

Definition titled (t : string) : YouTubeVideo :=
  {| id := ""; title := t; description := ""; publishedAt := ""; thumbnail := "" |}.

(** The complete lines of [cur] followed by [s], and the text after the
    last line feed: what [split('\n')] and [pop()] give for a buffer [cur]
    that holds no line feed. *)
Fixpoint lines_from (cur s : string) : list string * string :=
  match s with
  | EmptyString => ([], cur)
  | String c s' =>
      if bool_decide (c = LF) then
        let rest := lines_from "" s' in (cur :: rest.1, rest.2)
      else lines_from (cur +:+ String c "") s'
  end.

(** The text has no line feed, as the output of [JSON.stringify]. *)
Definition one_line (s : string) : Prop :=
  all_chars (fun c => negb (bool_decide (c = LF))) s = true.

(** The chunks read from the body, put together. *)
Definition received (chunks : list string) : string :=
  foldr String.append "" chunks.

(** The texts of a sequence of [sendSSE] messages. *)
Definition sent (jsons : list string) : string :=
  foldr (fun json rest => sse_message json +:+ rest) "" jsons.

(** What the inner [try] does with the text after [data: ]. *)
Definition on_json (parse : string -> option Frame) (st : Page.State) (json : string)
  : Page.State :=
  match parse json with
  | Some f => Page.on_frame f st
  | None => st
  end.

(** The steps of a progress list are in the order of the table. *)
Definition in_table_order (l : list Page.Entry) : Prop :=
  StronglySorted (fun a b => (rank a <= rank b)%Z) (Page.step <$> l).

(** A stand-in for [JSON.stringify] and [JSON.parse] on the two frames of a
    run without videos. *)
Definition sample_stringify (f : Frame) : string :=
  type f +:+ ":" +:+ default "" (step_of f).

Definition sample_parse (s : string) : option Frame :=
  if bool_decide (s = "progress:fetching_videos") then Some fetching_videos_frame
  else if bool_decide (s = "error:") then Some (error_frame no_videos_msg)
  else None.

(** The text of that run, cut into chunks at arbitrary places. *)
Definition sample_chunks : list string :=
  [ "da"; "ta: progress:fetching_videos" +:+ String LF "";
    String LF "data: err"; ""; "or:" +:+ String LF (String LF "") ].



(** ** Proof tactics for the runs of the orchestrator *)

Ltac run_step H :=
  cbv [POST start pipeline try_catch mbind M_bind mret M_ret await invoke sendSSE
       enqueue close closed existsb is_closed app initial lift throw orb negb
       Promise_all fst snd] in H.

(** Case analysis of one run, on what [request.json()] and each collaborator
    settle to.  Every case leaves the run as an explicit list of events. *)
Ltac post_cases lib first json :=
  let body := fresh "body" in let e := fresh "e" in let u := fresh "u" in
  let videos := fresh "videos" in let topics := fresh "topics" in
  let news := fresh "news" in let posts := fresh "posts" in
  let ideas := fresh "ideas" in let run := fresh "run" in
  let Hrun := fresh "Hrun" in
  remember (POST lib first json) as run eqn:Hrun;
  destruct json as [body|e] eqn:Ejson; run_step Hrun;
  [ destruct (destructure "url" body) as [u|e] eqn:Eurl; run_step Hrun;
    [ destruct (truthy u) eqn:Etruthy; run_step Hrun;
      [ destruct (bool_decide (typeof u = "string")) eqn:Etypeof; run_step Hrun;
        [ destruct (fetchChannelVideos lib (as_string u)) as [videos|e] eqn:Evideos;
          run_step Hrun;
          [ destruct videos as [|v vs]; cbn [length] in Hrun;
            [ rewrite bool_decide_true in Hrun by done; run_step Hrun
            | rewrite bool_decide_false in Hrun by done; run_step Hrun;
              destruct (analyzeTopics lib (v :: vs)) as [topics|e] eqn:Etopics;
              run_step Hrun;
              [ destruct (fetchRelevantNews lib topics) as [news|e] eqn:Enews;
                destruct (searchRedditPosts lib topics) as [posts|e'] eqn:Eposts;
                run_step Hrun;
                [ destruct (generateVideoIdeas lib topics news posts (title <$> v :: vs))
                    as [ideas|e] eqn:Eideas; run_step Hrun
                | | | destruct first; run_step Hrun ]
              | ] ]
          | ]
        | ]
      | ]
    | ]
  | ]; subst run.

(** An explicit run without its last two events. *)
Ltac all_but_last2 l :=
  let n := eval cbv [length Nat.sub] in (length l - 2) in
  eval cbv [firstn] in (firstn n l).

Ltac all_ongoing :=
  repeat first
    [ apply Forall_nil_2
    | apply Forall_cons_2; [ exact I || (do 3 eexists; reflexivity) | ] ].

(** Bringing the equations of a case in line with the hypotheses. *)
Ltac tidy :=
  repeat (simplify_eq; cbn [as_string truthy typeof negb] in *;
          try match goal with
              | H1 : ?x = _, H2 : ?x = _ |- _ => rewrite H1 in H2
              end);
  repeat match goal with
         | H : bool_decide _ = true |- _ => apply bool_decide_eq_true_1 in H
         | H : bool_decide _ = false |- _ => apply bool_decide_eq_false_1 in H
         | H : negb _ = true |- _ => apply negb_true_iff in H
         | H : negb _ = false |- _ => apply negb_false_iff in H
         end;
  try done.

(** * The model on sample inputs *)

Example extract_handle :
  YouTube.extractChannelIdentifier "https://www.youtube.com/@channelname"
  = Some {| YouTube.kind := YouTube.Handle; YouTube.value := "channelname" |}.
Proof. reflexivity. Qed.

Example extract_custom :
  YouTube.extractChannelIdentifier "https://www.youtube.com/c/channelname"
  = Some {| YouTube.kind := YouTube.Username; YouTube.value := "channelname" |}.
Proof. reflexivity. Qed.

Example extract_channel :
  YouTube.extractChannelIdentifier "https://www.youtube.com/channel/UC_x5-9?view=1"
  = Some {| YouTube.kind := YouTube.Id; YouTube.value := "UC_x5-9" |}.
Proof. reflexivity. Qed.

Example extract_nothing :
  YouTube.extractChannelIdentifier "https://example.com/@channelname" = None.
Proof. reflexivity. Qed.

Example lookup_one_video :
  length <$> match YouTube.fetchChannelVideos youtube_one_video
                     "https://www.youtube.com/@example" with
             | Resolved videos => Some videos
             | Rejected _ => None
             end = Some 1.
Proof. reflexivity. Qed.

Example lookup_unresolved :
  YouTube.fetchChannelVideos quota_exceeded "https://www.youtube.com/@example"
  = Rejected (Error "Could not resolve channel ID from URL").
Proof. reflexivity. Qed.

Example map_keeps_first_place_last_value :
  uniquePosts
    [ {| post_title := "a"; url := "u1"; subreddit := "x" |};
      {| post_title := "b"; url := "u2"; subreddit := "x" |};
      {| post_title := "c"; url := "u1"; subreddit := "x" |} ]
  = [ {| post_title := "c"; url := "u1"; subreddit := "x" |};
      {| post_title := "b"; url := "u2"; subreddit := "x" |} ].
Proof. reflexivity. Qed.

Example adult_child_dropped :
  Reddit.searchRedditPosts reddit_two (TopicsArray ["Tech"; "AI"])
  = Resolved [ {| post_title := "a"; url := "https://www.reddit.com/r/x/1";
                  subreddit := "x" |} ].
Proof. reflexivity. Qed.

Example deployed_run_without_news :
  POST (imports youtube_one_video news_down reddit_down openai_mock) NewsFirst
    (Resolved sample_body)
  = (Normal (),
     completed_run
       [ {| id := "v1"; title := "First video"; description := "About it";
            publishedAt := "2024-01-01T00:00:00Z";
            thumbnail := "https://i.ytimg.com/v1.jpg" |} ]
       ["Tech"; "AI"] [] [] [sample_idea "1"; sample_idea "2"]).
Proof. reflexivity. Qed.

Example both_reject_first_wins :
  Promise_all RedditFirst (@Rejected nat (Error "news")) (@Rejected nat (Error "reddit"))
  = Rejected (Error "reddit").
Proof. reflexivity. Qed.

(** * Runs of the orchestrator, case by case *)

Lemma run_to_completion lib first body s videos topics news posts ideas :
  valid_url body s ->
  fetchChannelVideos lib s = Resolved videos ->
  videos <> [] ->
  analyzeTopics lib videos = Resolved topics ->
  fetchRelevantNews lib topics = Resolved news ->
  searchRedditPosts lib topics = Resolved posts ->
  generateVideoIdeas lib topics news posts (title <$> videos) = Resolved ideas ->
  POST lib first (Resolved body)
  = (Normal (), completed_run videos topics news posts ideas).
Proof.
  intros [Hurl Hs] Hv Hne Ht Hn Hp Hi.
  post_cases lib first (Resolved body); tidy.
Qed.

Lemma completed_run_end videos topics news posts ideas :
  exists pre,
    completed_run videos topics news posts ideas
    = pre ++ [Enqueued (complete_frame topics news posts ideas); Closed]
    /\ Forall ongoing pre.
Proof.
  unfold completed_run.
  match goal with
  | |- context [ ?l = _ ++ _ ] =>
      let p := all_but_last2 l in exists p; split; [reflexivity|all_ongoing]
  end.
Qed.

(** The steps announced in a run are an initial part of the producer's
    list, whatever the collaborators do. *)
Lemma steps_prefix lib first json :
  progress_steps (POST lib first json).2 `prefix_of` producer_steps.
Proof.
  post_cases lib first json; eexists; reflexivity.
Qed.

Lemma producer_steps_sorted :
  StronglySorted (fun a b => (rank a <= rank b)%Z) producer_steps.
Proof.
  unfold producer_steps.
  repeat first [ apply SSorted_nil | apply SSorted_cons | apply Forall_nil_2
               | apply Forall_cons_2; [ by vm_compute | ] ].
Qed.

Lemma producer_steps_ranked : Forall (fun a => (1 <= rank a)%Z) producer_steps.
Proof.
  unfold producer_steps.
  repeat first [ apply Forall_nil_2 | apply Forall_cons_2; [ by vm_compute | ] ].
Qed.

(** * The claims about the stream *)

(** C2. For every request the run is: progress frames and collaborator
    calls only, then exactly one terminal frame (an [error] frame with a
    message or a [complete] frame with the result), then the close of the
    stream, and nothing after it; [start] itself does not throw. *)
Theorem one_terminal_event lib first json :
  exists pre f,
    POST lib first json = (Normal (), pre ++ [Enqueued f; Closed])
    /\ terminal f
    /\ Forall ongoing pre.
Proof.
  post_cases lib first json.
  all: match goal with
       | |- context [ (Normal (), ?l) = _ ] =>
           let p := all_but_last2 l in exists p; eexists; split; [reflexivity|]
       end.
  all: split; [ unfold terminal, error_frame, complete_frame; eauto 6 | ].
  all: all_ongoing.
Qed.

(** C4. When the [url] member of the body is missing, empty or not a
    string, the run consists of one [error] frame followed by the close of
    the stream: the first event is the terminal error and no collaborator is
    invoked.  Where the body can be destructured the message is the
    validation message. *)
Theorem invalid_url_fails_first lib first body :
  (forall s, destructure "url" body = Normal (JString s) -> s = "") ->
  exists msg,
    POST lib first (Resolved body) = (Normal (), [Enqueued (error_frame msg); Closed])
    /\ head (frames (POST lib first (Resolved body)).2) = Some (error_frame msg)
    /\ calls (POST lib first (Resolved body)).2 = []
    /\ (forall v, destructure "url" body = Normal v -> msg = required_msg).
Proof.
  intros Hbad.
  post_cases lib first (Resolved body); tidy.
  all: try (destruct u; tidy; apply Hbad in Eurl; tidy).
  all: eexists; repeat split; try reflexivity; intros; try reflexivity; congruence.
Qed.

Lemma invalid_url_fails_first_witness :
  (forall s, destructure "url" (JObject [("url", JNumber 42)]) = Normal (JString s) ->
             s = "")
  /\ POST mock NewsFirst (Resolved (JObject [("url", JNumber 42)]))
     = (Normal (), [Enqueued (error_frame required_msg); Closed]).
Proof.
  assert (Hbad : forall s,
             destructure "url" (JObject [("url", JNumber 42)]) = Normal (JString s) ->
             s = "") by (intros s H; discriminate H).
  split; [exact Hbad|].
  destruct (invalid_url_fails_first mock NewsFirst (JObject [("url", JNumber 42)]) Hbad)
    as (msg & Hrun & _ & _ & Hmsg).
  rewrite Hrun. by rewrite (Hmsg (JNumber 42%Z)).
Defined.

(** C5. For a valid URL, a video lookup that resolves with at least one
    video and remaining collaborators that resolve, the terminal frame is
    [complete] and its payload holds the four arrays as the collaborators
    returned them ([news] and [redditPosts] may be empty). *)
Theorem complete_carries_four_arrays lib first body s videos topics news posts ideas :
  valid_url body s ->
  fetchChannelVideos lib s = Resolved videos ->
  videos <> [] ->
  analyzeTopics lib videos = Resolved topics ->
  fetchRelevantNews lib topics = Resolved news ->
  searchRedditPosts lib topics = Resolved posts ->
  generateVideoIdeas lib topics news posts (title <$> videos) = Resolved ideas ->
  exists pre,
    POST lib first (Resolved body)
    = (Normal (),
       pre ++ [Enqueued (complete_frame topics news posts ideas); Closed])
    /\ Forall ongoing pre
    /\ data (complete_frame topics news posts ideas)
       = PipelineResult topics news posts ideas.
Proof.
  intros Hurl Hv Hne Ht Hn Hp Hi.
  rewrite (run_to_completion lib first body s videos topics news posts ideas) by done.
  destruct (completed_run_end videos topics news posts ideas) as (pre & -> & Hpre).
  by exists pre.
Qed.

Lemma complete_carries_four_arrays_witness :
  exists pre,
    POST mock NewsFirst (Resolved sample_body)
    = (Normal (),
       pre ++ [Enqueued (complete_frame ["Tech"; "AI"] [] []
                           [sample_idea "1"; sample_idea "2"]); Closed]).
Proof.
  destruct (complete_carries_four_arrays mock NewsFirst sample_body
              "https://www.youtube.com/@example"
              [sample_video "1"; sample_video "2"; sample_video "3"]
              ["Tech"; "AI"] [] [] [sample_idea "1"; sample_idea "2"])
    as (pre & Hrun & _).
  - split; [reflexivity|discriminate].
  - reflexivity.
  - discriminate.
  - reflexivity.
  - reflexivity.
  - reflexivity.
  - reflexivity.
  - exists pre. exact Hrun.
Defined.

(** C7. When the video lookup resolves with an empty array, the run is:
    the [fetching_videos] announcement, the one call to the lookup, an
    [error] frame saying that no videos were found, and the close of the
    stream.  No later collaborator is called. *)
Theorem no_videos_terminal_error lib first body s :
  valid_url body s ->
  fetchChannelVideos lib s = Resolved [] ->
  POST lib first (Resolved body)
  = (Normal (),
     [ Enqueued fetching_videos_frame; Invoked FetchChannelVideos;
       Enqueued (error_frame no_videos_msg); Closed ]).
Proof.
  intros [Hurl Hs] Hv.
  post_cases lib first (Resolved body); tidy.
Qed.

Lemma no_videos_terminal_error_witness :
  calls (POST mock_no_videos RedditFirst (Resolved sample_body)).2 = [FetchChannelVideos]
  /\ last (frames (POST mock_no_videos RedditFirst (Resolved sample_body)).2)
     = Some (error_frame "No videos found for this channel").
Proof.
  rewrite (no_videos_terminal_error mock_no_videos RedditFirst sample_body
             "https://www.youtube.com/@example").
  - split; reflexivity.
  - split; [reflexivity|discriminate].
  - reflexivity.
Defined.

(** C10. When [request.json()] rejects (the body is not valid JSON), the
    run is one [error] frame made in the [catch] block from the message of
    that error, then the close of the stream; no collaborator is invoked.  The
    frame carries the parse error's own message, which an engine never leaves
    empty, and not the validation message. *)
Theorem bad_json_terminal_error lib first e :
  POST lib first (Rejected e)
  = (Normal (), [Enqueued (error_frame (or_else (message e) default_msg)); Closed])
  /\ calls (POST lib first (Rejected e)).2 = []
  /\ (message e <> "" -> or_else (message e) default_msg = message e).
Proof.
  split; [|split].
  - post_cases lib first (@Rejected JsValue e); tidy.
  - post_cases lib first (@Rejected JsValue e); tidy.
  - intros Hm. unfold or_else. by rewrite bool_decide_false.
Qed.

Lemma bad_json_terminal_error_witness :
  POST mock NewsFirst (Rejected (Error "Unexpected end of JSON input"))
  = (Normal (), [Enqueued (error_frame "Unexpected end of JSON input"); Closed])
  /\ error_frame "Unexpected end of JSON input" <> error_frame required_msg.
Proof.
  split; [|discriminate].
  destruct (bad_json_terminal_error mock NewsFirst (Error "Unexpected end of JSON input"))
    as (Hrun & _ & Hmsg).
  rewrite Hrun, Hmsg; [reflexivity|discriminate].
Defined.

(** C9. No progress event of any run has the step [starting]; the first
    frame of every run is the [fetching_videos] announcement or an [error]
    frame; [starting] heads the consumer's table and is the one entry the
    consumer seeds its progress list with. *)
Theorem producer_never_starting lib first json :
  ("starting" ∉ progress_steps (POST lib first json).2)
  /\ (exists f, head (frames (POST lib first json).2) = Some f
        /\ (f = fetching_videos_frame \/ exists msg, f = error_frame msg))
  /\ head stepOrder = Some "starting"
  /\ progress_step <$> seeded_progress = ["starting"].
Proof.
  split; [|split; [|done]].
  - intros Hin.
    destruct (steps_prefix lib first json) as [k Hk].
    assert (H : "starting" ∈ producer_steps)
      by (rewrite Hk; apply elem_of_app; by left).
    unfold producer_steps in H.
    repeat (apply elem_of_cons in H as [H|H]; [discriminate|]).
    by apply elem_of_nil in H.
  - post_cases lib first json; eexists; (split; [reflexivity|]); eauto.
Qed.

(** C3. In every run the steps of the progress events are in the
    consumer's table and their ranks never decrease.  Whichever of the two
    stage-4 promises settled first, once the topics are announced and both
    searches resolve, the stream has [news_fetched] (with the news) directly
    followed by [reddit_searched] (with the discussions). *)
Theorem progress_rank_monotone lib first json :
  let r := (POST lib first json).2 in
  StronglySorted (fun a b => (rank a <= rank b)%Z) (progress_steps r)
  /\ Forall (fun a => (1 <= rank a)%Z) (progress_steps r)
  /\ forall msg topics news posts,
       progress_frame "topics_analyzed" msg (Some (Topics topics)) ∈ frames r ->
       fetchRelevantNews lib topics = Resolved news ->
       searchRedditPosts lib topics = Resolved posts ->
       exists pre post m1 m2,
         frames r =
           pre ++ [ progress_frame "news_fetched" m1 (Some (News news));
                    progress_frame "reddit_searched" m2 (Some (RedditPosts posts)) ]
               ++ post.
Proof.
  intros r. destruct (steps_prefix lib first json) as [k Hk]. split; [|split].
  - pose proof producer_steps_sorted as Hs. rewrite Hk in Hs.
    by apply StronglySorted_app_1_l in Hs.
  - pose proof producer_steps_ranked as Hs. rewrite Hk in Hs.
    by apply Forall_app in Hs as [Hs _].
  - clear k Hk. intros msg topics news posts Hin Hn Hp. subst r.
    post_cases lib first json; cbv [frames omap list_omap snd] in *.
    all: repeat (apply elem_of_cons in Hin as [Hin|Hin]; [try discriminate|]).
    all: try (by apply elem_of_nil in Hin).
    all: injection Hin as -> ->; tidy.
    all: match goal with
         | |- context [ ?l = _ ++ _ ++ _ ] =>
             let p := eval cbv [firstn] in (firstn 6 l) in
             let q := eval cbv [skipn] in (skipn 8 l) in
             exists p, q; do 2 eexists; reflexivity
         end.
Qed.

Lemma progress_rank_monotone_witness :
  (exists pre post m1 m2,
      frames (POST mock NewsFirst (Resolved sample_body)).2 =
        pre ++ [ progress_frame "news_fetched" m1 (Some (News []));
                 progress_frame "reddit_searched" m2 (Some (RedditPosts [])) ]
            ++ post)
  /\ (exists pre post m1 m2,
        frames (POST mock RedditFirst (Resolved sample_body)).2 =
          pre ++ [ progress_frame "news_fetched" m1 (Some (News []));
                   progress_frame "reddit_searched" m2 (Some (RedditPosts [])) ]
              ++ post).
Proof.
  split.
  - apply (proj2 (proj2 (progress_rank_monotone mock NewsFirst (Resolved sample_body)))
             "Identified 2 main topics" ["Tech"; "AI"] [] []).
    + apply list_elem_of_lookup. by exists 3.
    + reflexivity.
    + reflexivity.
  - apply (proj2 (proj2 (progress_rank_monotone mock RedditFirst (Resolved sample_body)))
             "Identified 2 main topics" ["Tech"; "AI"] [] []).
    + apply list_elem_of_lookup. by exists 3.
    + reflexivity.
    + reflexivity.
Defined.

(** * Removing duplicates through a [Map] *)

Section MapFacts.
Context {V : Type}.
Implicit Types (m entries : list (string * V)) (k : string) (v : V).

Lemma Map_set_keys_old k v m : k ∈ m.*1 -> (Map_set k v m).*1 = m.*1.
Proof.
  induction m as [|[k' v'] m IH]; cbn [Map_set fmap list_fmap fst].
  - intros H. by apply elem_of_nil in H.
  - intros H. case_bool_decide as Hk; cbn [fmap list_fmap fst].
    + by subst.
    + f_equal. apply IH. apply elem_of_cons in H as [H|H]; [done|exact H].
Qed.

Lemma Map_set_keys_new k v m : k ∉ m.*1 -> (Map_set k v m).*1 = m.*1 ++ [k].
Proof.
  induction m as [|[k' v'] m IH]; cbn [Map_set fmap list_fmap fst app]; [done|].
  intros H. apply not_elem_of_cons in H as [Hne H].
  rewrite bool_decide_false by done. cbn [fmap list_fmap fst]. f_equal. by apply IH.
Qed.

Lemma Map_set_NoDup k v m : NoDup m.*1 -> NoDup (Map_set k v m).*1.
Proof.
  intros Hm. destruct (decide (k ∈ m.*1)) as [Hin|Hout].
  - by rewrite Map_set_keys_old.
  - rewrite Map_set_keys_new by done. apply NoDup_app. split; [done|].
    split; [|apply NoDup_singleton].
    intros x Hx Hk. apply list_elem_of_singleton in Hk. by subst.
Qed.

Lemma Map_set_Forall (P : string * V -> Prop) k v m :
  P (k, v) -> Forall P m -> Forall P (Map_set k v m).
Proof.
  intros Hkv. induction 1 as [|[k' v'] m Hx Hm IH]; cbn [Map_set].
  - by repeat constructor.
  - case_bool_decide; constructor; auto.
Qed.

Lemma Map_new_invariant (I : list (string * V) -> Prop) entries :
  I [] ->
  (forall k v m, (k, v) ∈ entries -> I m -> I (Map_set k v m)) ->
  I (Map_new entries).
Proof.
  unfold Map_new. generalize (@nil (string * V)).
  induction entries as [|[k v] entries IH]; intros acc Hacc Hstep; [done|].
  cbn [foldl]. apply IH.
  - apply Hstep; [left|done].
  - intros k' v' m Hin. apply Hstep. by right.
Qed.

Lemma Map_new_NoDup entries : NoDup (Map_new entries).*1.
Proof.
  apply (Map_new_invariant (fun m => NoDup m.*1)).
  - constructor.
  - intros k v m _. apply Map_set_NoDup.
Qed.

Lemma Map_new_Forall (P : string * V -> Prop) entries :
  Forall P entries -> Forall P (Map_new entries).
Proof.
  intros H. apply (Map_new_invariant (Forall P)); [constructor|].
  intros k v m Hin. apply Map_set_Forall.
  rewrite Forall_forall in H. by apply H.
Qed.
End MapFacts.

Lemma uniquePosts_length allPosts : length (uniquePosts allPosts) <= 10.
Proof. unfold uniquePosts. rewrite length_take. lia. Qed.

Lemma uniquePosts_Forall (P : RedditPost -> Prop) allPosts :
  Forall P allPosts -> Forall P (uniquePosts allPosts).
Proof.
  intros H. unfold uniquePosts, values. apply Forall_take.
  apply Forall_fmap.
  apply (Map_new_Forall (fun kv => P kv.2)).
  by apply Forall_fmap.
Qed.

Lemma uniquePosts_NoDup allPosts : NoDup (url <$> uniquePosts allPosts).
Proof.
  unfold uniquePosts, values. rewrite fmap_take.
  set (m := Map_new _).
  assert (Hkeys : url <$> m.*2 = m.*1).
  { assert (Hm : Forall (fun kv => kv.1 = url kv.2) m).
    { apply Map_new_Forall. apply Forall_fmap. by apply Forall_true. }
    clearbody m. induction Hm as [|[k p] m Hk Hm IH]; [done|].
    cbn in *. by rewrite IH, Hk. }
  rewrite Hkeys.
  apply (sublist_NoDup _ m.*1); [subst m; apply Map_new_NoDup|apply sublist_take].
Qed.

Lemma uniquePosts_nil : uniquePosts [] = [].
Proof. reflexivity. Qed.

(** * lib/reddit.ts and lib/news.ts never reject *)

Lemma posts_of_safe (served : ChildData -> Prop) l :
  (forall d, {| child_data := Some d |} ∈ l -> served d) ->
  Forall (family_safe served) (posts_of l).
Proof.
  unfold posts_of.
  induction l as [|[[d|]] l IH]; intros Hl; cbn [omap list_omap child_data].
  - constructor.
  - destruct (over_18 d) eqn:Hd.
    + apply IH. intros d' Hd'. apply Hl. by right.
    + cbn [fmap list_fmap]. constructor.
      * exists d. split; [apply Hl; by left|done].
      * apply IH. intros d' Hd'. apply Hl. by right.
  - apply IH. intros d' Hd'. apply Hl. by right.
Qed.

Lemma attempt_safe w n endpoint topic posts :
  Reddit.attempt w n endpoint topic = Normal (Some posts) ->
  Forall (family_safe (Reddit.served w)) posts.
Proof.
  unfold Reddit.attempt, axios_get, read, mbind, Result_bind.
  destruct (Reddit.search w n endpoint topic) as [st b|c m] eqn:Hsearch; [|done].
  destruct (bool_decide (st < 500)); [|done]. cbn [status body].
  do 2 (case_bool_decide; [done|]).
  destruct b as [|[l|]]; [done| |done].
  intros [= <-]. apply posts_of_safe. intros d Hd.
  by exists n, endpoint, topic, st, l.
Qed.

Lemma try_endpoints_invariant w (I : list RedditPost -> Prop) topic es st :
  (forall n endpoint posts all,
      Reddit.attempt w n endpoint topic = Normal (Some posts) ->
      I all -> I (all ++ posts)) ->
  I st.1 -> I (Reddit.try_endpoints w topic es st).1.
Proof.
  intros Hstep. revert st.
  induction es as [|endpoint es IH]; intros st Hst; cbn [Reddit.try_endpoints]; [done|].
  destruct (Reddit.attempt w st.2 endpoint topic) as [[posts|]|e] eqn:Hatt.
  - cbn [fst]. by eapply Hstep.
  - by apply IH.
  - by apply IH.
Qed.

Lemma search_loop_invariant w (I : list RedditPost -> Prop) topics st :
  (forall n endpoint topic posts all,
      Reddit.attempt w n endpoint topic = Normal (Some posts) ->
      I all -> I (all ++ posts)) ->
  I st.1 ->
  I (foldl (fun st topic => Reddit.try_endpoints w topic Reddit.endpoints st) st topics).1.
Proof.
  intros Hstep. revert st.
  induction topics as [|topic topics IH]; intros st Hst; cbn [foldl]; [done|].
  apply IH. apply try_endpoints_invariant; [|done].
  intros. by eapply Hstep.
Qed.

Lemma legacy_attempt_safe w n topic posts :
  RedditLegacy.attempt w n topic = Normal posts ->
  Forall (family_safe (RedditLegacy.served w)) posts.
Proof.
  unfold RedditLegacy.attempt, axios_get, read, mbind, Result_bind.
  destruct (RedditLegacy.search w n topic) as [st b|c m] eqn:Hsearch; [|done].
  destruct (status_2xx st); [|done]. cbn [status body].
  destruct b as [|[l|]]; [done| |].
  - intros [= <-]. apply posts_of_safe. intros d Hd.
    by exists n, topic, st, l.
  - intros [= <-]. constructor.
Qed.

Lemma legacy_loop_invariant w (I : list RedditPost -> Prop) topics st :
  (forall n topic posts all,
      RedditLegacy.attempt w n topic = Normal posts -> I all -> I (all ++ posts)) ->
  I st.1 -> I (foldl (RedditLegacy.step w) st topics).1.
Proof.
  intros Hstep. revert st.
  induction topics as [|topic topics IH]; intros st Hst; cbn [foldl]; [done|].
  apply IH. unfold RedditLegacy.step.
  destruct (RedditLegacy.attempt w st.2 topic) as [posts|e] eqn:Hatt; cbn [fst]; [|done].
  by eapply Hstep.
Qed.

Lemma searchRedditPosts_spec (w : Reddit.World) (arg : TopicsArg) :
  exists posts,
    Reddit.searchRedditPosts w arg = Resolved posts
    /\ length posts <= 10
    /\ NoDup (url <$> posts)
    /\ Forall (family_safe (Reddit.served w)) posts
    /\ (forall e, Reddit.search_all w arg = Thrown e -> posts = []).
Proof.
  destruct arg as [topics|].
  - eexists. split; [reflexivity|].
    split; [apply uniquePosts_length|]. split; [apply uniquePosts_NoDup|].
    split; [|done].
    apply uniquePosts_Forall.
    apply (search_loop_invariant w (Forall (family_safe (Reddit.served w))));
      [|constructor].
    intros n endpoint topic posts all Hatt Hall. apply Forall_app. split; [done|].
    by eapply attempt_safe.
  - exists []. repeat split; [simpl; lia|constructor|constructor].
Qed.

Lemma legacy_searchRedditPosts_spec (w : RedditLegacy.World) (arg : TopicsArg) :
  exists posts,
    RedditLegacy.searchRedditPosts w arg = Resolved posts
    /\ length posts <= 10
    /\ NoDup (url <$> posts)
    /\ Forall (family_safe (RedditLegacy.served w)) posts
    /\ (forall e, RedditLegacy.search_all w arg = Thrown e -> posts = []).
Proof.
  destruct arg as [topics|].
  - eexists. split; [reflexivity|].
    split; [apply uniquePosts_length|]. split; [apply uniquePosts_NoDup|].
    split; [|done].
    apply uniquePosts_Forall.
    apply (legacy_loop_invariant w (Forall (family_safe (RedditLegacy.served w))));
      [|constructor].
    intros n topic posts all Hatt Hall. apply Forall_app. split; [done|].
    by eapply legacy_attempt_safe.
  - exists []. repeat split; [simpl; lia|constructor|constructor].
Qed.

(** C8. For every argument, in both versions of the function in the
    sources, the discussion search resolves (it never rejects) to at most 10
    posts with pairwise different URLs, each made from a child that Reddit
    served and that is not marked [over_18]; when the outer [try] block throws
    it resolves to the empty list. *)
Theorem discussion_search_total_unique_safe :
  (forall (w : Reddit.World) (arg : TopicsArg),
      exists posts,
        Reddit.searchRedditPosts w arg = Resolved posts
        /\ length posts <= 10
        /\ NoDup (url <$> posts)
        /\ Forall (family_safe (Reddit.served w)) posts
        /\ (forall e, Reddit.search_all w arg = Thrown e -> posts = []))
  /\ (forall (w : RedditLegacy.World) (arg : TopicsArg),
      exists posts,
        RedditLegacy.searchRedditPosts w arg = Resolved posts
        /\ length posts <= 10
        /\ NoDup (url <$> posts)
        /\ Forall (family_safe (RedditLegacy.served w)) posts
        /\ (forall e, RedditLegacy.search_all w arg = Thrown e -> posts = [])).
Proof.
  split; [exact searchRedditPosts_spec|exact legacy_searchRedditPosts_spec].
Qed.

Lemma discussion_search_total_unique_safe_witness :
  Reddit.search_all reddit_two TopicsNotArray = Thrown (TypeError "slice")
  /\ Reddit.searchRedditPosts reddit_two TopicsNotArray = Resolved []
  /\ exists posts,
       Reddit.searchRedditPosts reddit_two (TopicsArray ["Tech"; "AI"]) = Resolved posts
       /\ length posts <= 10.
Proof.
  destruct (proj1 discussion_search_total_unique_safe reddit_two TopicsNotArray)
    as (posts & Hres & _ & _ & _ & Hnil).
  destruct (proj1 discussion_search_total_unique_safe reddit_two
              (TopicsArray ["Tech"; "AI"])) as (posts' & Hres' & Hlen & _).
  split; [reflexivity|]. split.
  - rewrite Hres. f_equal. apply (Hnil (TypeError "slice")). reflexivity.
  - exists posts'. split; [exact Hres'|exact Hlen].
Defined.

(** * lib/youtube.ts: every rejection carries a message *)

Lemma getChannelId_resolves w identifier ty :
  present (YouTube.YOUTUBE_API_KEY w) = true ->
  exists r, YouTube.getChannelId w identifier ty = Resolved r.
Proof.
  intros Hkey. unfold YouTube.getChannelId. rewrite Hkey. cbn [negb].
  unfold try_. case_match; cbn [settle mret Result_ret]; eauto.
Qed.

Lemma fetchChannelVideos_message w url e :
  YouTube.fetchChannelVideos w url = Rejected e -> message e <> "".
Proof.
  unfold YouTube.fetchChannelVideos. intros H.
  destruct (present (YouTube.YOUTUBE_API_KEY w)) eqn:Hkey; cbn [negb] in H;
    [| cbn in H; by simplify_eq ].
  destruct (YouTube.extractChannelIdentifier url) as [identifier|];
    [| cbn in H; by simplify_eq ].
  destruct (getChannelId_resolves w (YouTube.value identifier)
              (YouTube.kind identifier) Hkey) as [r Hr].
  rewrite Hr in H. unfold awaited, mbind, Result_bind, try_, settle in H.
  repeat (case_match; simplify_eq; try done).
Qed.

Lemma fetchRelevantNews_resolves nw topics :
  exists news,
    NewsApi.fetchRelevantNews nw topics = Resolved news
    /\ ((forall q r, axios_get status_2xx (NewsApi.everything nw q) <> Normal r) ->
        news = []).
Proof.
  unfold NewsApi.fetchRelevantNews.
  destruct (present (NewsApi.NEWS_API_KEY nw)); cbn [negb]; [|by exists []].
  set (mainTopic := or_else _ _).
  destruct (axios_get status_2xx (NewsApi.everything nw mainTopic)) as [r|e] eqn:Hget.
  - cbn [mbind Result_bind try_].
    destruct (read "articles" (body r)) as [[l|]|e]; cbn [try_ settle mret Result_ret];
      eexists; (split; [reflexivity|]); intros Hfail; by destruct (Hfail mainTopic r).
  - exists []. by split.
Qed.

Lemma search_all_unreachable rd topics :
  (forall n endpoint topic r,
      axios_get (fun st => bool_decide (st < 500)) (Reddit.search rd n endpoint topic)
      <> Normal r) ->
  Reddit.searchRedditPosts rd (TopicsArray topics) = Resolved [].
Proof.
  intros Hfail. unfold Reddit.searchRedditPosts, Reddit.search_all.
  cbn [slice_topics mbind Result_bind try_ mret Result_ret settle].
  rewrite <- uniquePosts_nil at 2. do 2 f_equal.
  apply (search_loop_invariant rd (fun all => all = [])); [|done].
  intros n endpoint topic posts all Hatt _. exfalso.
  unfold Reddit.attempt in Hatt.
  destruct (axios_get _ (Reddit.search rd n endpoint topic)) as [r|e] eqn:Hget.
  - by destruct (Hfail n endpoint topic r).
  - done.
Qed.

(** * The claims about failures of the collaborators *)

(** C6. When [fetchChannelVideos] rejects with an error [e], the run is:
    the [fetching_videos] announcement, the one call to the lookup (no
    retry), an [error] frame whose message is the message of [e] as it is,
    and the close of the stream; there is no [complete] frame and no result. *)
Theorem lookup_error_verbatim (w : YouTube.World) lib first body s e :
  fetchChannelVideos lib = YouTube.fetchChannelVideos w ->
  valid_url body s ->
  YouTube.fetchChannelVideos w s = Rejected e ->
  POST lib first (Resolved body)
  = (Normal (),
     [ Enqueued fetching_videos_frame; Invoked FetchChannelVideos;
       Enqueued (error_frame (message e)); Closed ]).
Proof.
  intros Hlib [Hurl Hs] Hrej.
  pose proof (fetchChannelVideos_message _ _ _ Hrej) as Hmsg.
  rewrite <- Hlib in Hrej.
  post_cases lib first (Resolved body); tidy.
  unfold or_else. rewrite bool_decide_false by done. done.
Qed.

Lemma lookup_error_verbatim_witness :
  YouTube.fetchChannelVideos quota_exceeded "https://www.youtube.com/channel/UC_x5"
  = Rejected (Error "YouTube API quota exceeded or invalid API key")
  /\ POST (imports quota_exceeded news_down reddit_down openai_mock) RedditFirst
       (Resolved (JObject [("url", JString "https://www.youtube.com/channel/UC_x5")]))
     = (Normal (),
        [ Enqueued fetching_videos_frame; Invoked FetchChannelVideos;
          Enqueued (error_frame "YouTube API quota exceeded or invalid API key");
          Closed ]).
Proof.
  split; [reflexivity|].
  apply (lookup_error_verbatim quota_exceeded
           (imports quota_exceeded news_down reddit_down openai_mock) RedditFirst
           (JObject [("url", JString "https://www.youtube.com/channel/UC_x5")])
           "https://www.youtube.com/channel/UC_x5"
           (Error "YouTube API quota exceeded or invalid API key")).
  - reflexivity.
  - split; [reflexivity|discriminate].
  - reflexivity.
Defined.

(** The orchestrator replaces an empty message by its default text. *)
Lemma empty_message_replaced lib first body s e :
  valid_url body s ->
  fetchChannelVideos lib s = Rejected e ->
  message e = "" ->
  POST lib first (Resolved body)
  = (Normal (),
     [ Enqueued fetching_videos_frame; Invoked FetchChannelVideos;
       Enqueued (error_frame default_msg); Closed ]).
Proof.
  intros [Hurl Hs] Hrej Hmsg.
  post_cases lib first (Resolved body); tidy.
  unfold or_else. rewrite Hmsg. done.
Qed.

(** C1, as stated, fails: with a news search that throws, the run ends
    with an [error] frame and has no [complete] frame. *)
Lemma stage4_rejection_not_isolated :
  fetchRelevantNews mock_news_throws ["Tech"; "AI"] = Rejected (Error "news service down")
  /\ POST mock_news_throws RedditFirst (Resolved sample_body)
     = (Normal (),
        [ Enqueued fetching_videos_frame;
          Invoked FetchChannelVideos;
          Enqueued (progress_frame "videos_fetched" "Found 3 videos" (Some (VideoCount 3)));
          Enqueued (progress_frame "analyzing_topics" "Analyzing topics with AI..." None);
          Invoked AnalyzeTopics;
          Enqueued (progress_frame "topics_analyzed" "Identified 2 main topics"
                      (Some (Topics ["Tech"; "AI"])));
          Enqueued (progress_frame "fetching_news" "Fetching relevant news..." None);
          Invoked FetchRelevantNews;
          Enqueued (progress_frame "searching_reddit" "Searching Reddit discussions..." None);
          Invoked SearchRedditPosts;
          Enqueued (error_frame "news service down");
          Closed ])
  /\ ~ (exists topics news posts ideas,
          complete_frame topics news posts ideas
          ∈ frames (POST mock_news_throws RedditFirst (Resolved sample_body)).2).
Proof.
  split; [reflexivity|]. split; [reflexivity|].
  intros (topics & news & posts & ideas & Hin).
  vm_compute in Hin.
  repeat (apply elem_of_cons in Hin as [Hin|Hin]; [discriminate|]).
  by apply elem_of_nil in Hin.
Qed.

(** C1, amended. The orchestrator does not isolate a stage-4 rejection:
    when [Promise.all] rejects, the run ends with one [error] frame carrying
    that rejection's message (the default text for an empty one).  The
    isolation is inside the two collaborators: they resolve for every upstream
    behaviour, to the empty list when their requests fail, so that with them
    the run ends with [complete]. *)
Theorem stage4_isolation_in_collaborators :
  (forall lib first body s videos topics e,
      valid_url body s ->
      fetchChannelVideos lib s = Resolved videos -> videos <> [] ->
      analyzeTopics lib videos = Resolved topics ->
      Promise_all first (fetchRelevantNews lib topics) (searchRedditPosts lib topics)
      = Rejected e ->
      exists pre,
        POST lib first (Resolved body)
        = (Normal (),
           pre ++ [Enqueued (error_frame (or_else (message e) default_msg)); Closed])
        /\ Forall ongoing pre)
  /\ (forall nw rd topics,
        exists news posts,
          NewsApi.fetchRelevantNews nw topics = Resolved news
          /\ Reddit.searchRedditPosts rd (TopicsArray topics) = Resolved posts
          /\ ((forall q r, axios_get status_2xx (NewsApi.everything nw q) <> Normal r) ->
              news = [])
          /\ ((forall n endpoint topic r,
                  axios_get (fun st => bool_decide (st < 500))
                    (Reddit.search rd n endpoint topic) <> Normal r) ->
              posts = []))
  /\ (forall yt nw rd ai first body s videos topics,
        valid_url body s ->
        YouTube.fetchChannelVideos yt s = Resolved videos -> videos <> [] ->
        topics_of ai videos = Resolved topics ->
        (forall news posts, exists ideas,
            ideas_of ai topics news posts (title <$> videos) = Resolved ideas) ->
        exists pre news posts ideas,
          POST (imports yt nw rd ai) first (Resolved body)
          = (Normal (),
             pre ++ [Enqueued (complete_frame topics news posts ideas); Closed])
          /\ Forall ongoing pre
          /\ NewsApi.fetchRelevantNews nw topics = Resolved news
          /\ Reddit.searchRedditPosts rd (TopicsArray topics) = Resolved posts).
Proof.
  split; [|split].
  - intros lib first body s videos topics e [Hurl Hs] Hv Hne Ht Hall.
    post_cases lib first (Resolved body); tidy;
      try rewrite Enews in Hall; try rewrite Eposts in Hall;
      cbn [Promise_all] in Hall; tidy.
    all: match goal with
         | |- context [ (Normal (), ?l) = _ ] =>
             let p := all_but_last2 l in exists p; split; [reflexivity|all_ongoing]
         end.
  - intros nw rd topics.
    destruct (fetchRelevantNews_resolves nw topics) as (news & Hnews & Hnil).
    destruct (searchRedditPosts_spec rd (TopicsArray topics)) as (posts & Hposts & _).
    exists news, posts. repeat split; [done|done|done|].
    intros Hfail. rewrite (search_all_unreachable rd topics Hfail) in Hposts.
    by simplify_eq.
  - intros yt nw rd ai first body s videos topics Hurl Hv Hne Ht Hideas.
    destruct (fetchRelevantNews_resolves nw topics) as (news & Hnews & _).
    destruct (searchRedditPosts_spec rd (TopicsArray topics)) as (posts & Hposts & _).
    destruct (Hideas news posts) as [ideas Hi].
    destruct (completed_run_end videos topics news posts ideas) as (pre & Hend & Hpre).
    exists pre, news, posts, ideas. rewrite <- Hend. repeat split; try done.
    by apply (run_to_completion (imports yt nw rd ai) first body s).
Qed.

Lemma stage4_isolation_in_collaborators_witness :
  (exists pre,
      POST mock_news_throws NewsFirst (Resolved sample_body)
      = (Normal (), pre ++ [Enqueued (error_frame "news service down"); Closed]))
  /\ NewsApi.fetchRelevantNews news_down ["Tech"; "AI"] = Resolved []
  /\ Reddit.searchRedditPosts reddit_down (TopicsArray ["Tech"; "AI"]) = Resolved []
  /\ (exists pre ideas,
        POST (imports youtube_one_video news_down reddit_down openai_mock) NewsFirst
          (Resolved sample_body)
        = (Normal (),
           pre ++ [Enqueued (complete_frame ["Tech"; "AI"] [] [] ideas); Closed])).
Proof.
  destruct stage4_isolation_in_collaborators as (Hthrow & Hcatch & Hrun).
  split; [|split; [|split]].
  - destruct (Hthrow mock_news_throws NewsFirst sample_body
                "https://www.youtube.com/@example"
                [sample_video "1"; sample_video "2"; sample_video "3"]
                ["Tech"; "AI"] (Error "news service down")) as (pre & Hpre & _).
    + split; [reflexivity|discriminate].
    + reflexivity.
    + discriminate.
    + reflexivity.
    + reflexivity.
    + exists pre. exact Hpre.
  - destruct (Hcatch news_down reddit_down ["Tech"; "AI"])
      as (news & posts & Hnews & _ & Hnil & _).
    rewrite Hnews. f_equal. apply Hnil. intros q r H. discriminate H.
  - destruct (Hcatch news_down reddit_down ["Tech"; "AI"])
      as (news & posts & _ & Hposts & _ & Hnil).
    rewrite Hposts. f_equal. apply Hnil. intros n endpoint topic r H. discriminate H.
  - destruct (Hrun youtube_one_video news_down reddit_down openai_mock NewsFirst
                sample_body "https://www.youtube.com/@example"
                [ {| id := "v1"; title := "First video"; description := "About it";
                     publishedAt := "2024-01-01T00:00:00Z";
                     thumbnail := "https://i.ytimg.com/v1.jpg" |} ]
                ["Tech"; "AI"])
      as (pre & news & posts & ideas & Hpre & _ & Hnews & Hposts).
    + split; [reflexivity|discriminate].
    + reflexivity.
    + discriminate.
    + reflexivity.
    + intros news posts. eexists. reflexivity.
    + vm_compute in Hnews. vm_compute in Hposts.
      injection Hnews as <-. injection Hposts as <-.
      exists pre, ideas. exact Hpre.
Defined.

(** * Further properties of the orchestrator *)

(** X1. In every run the collaborators are called in the order of the
    code, each at most once and none after a failure: the calls are an initial
    part of the list of the five.  The discussion search is started whenever
    the news search is, before either is awaited. *)
Theorem calls_in_fixed_order lib first json :
  calls (POST lib first json).2 `prefix_of` call_order
  /\ (FetchRelevantNews ∈ calls (POST lib first json).2 ->
      SearchRedditPosts ∈ calls (POST lib first json).2).
Proof.
  split.
  - post_cases lib first json; eexists; reflexivity.
  - post_cases lib first json; cbv [calls omap list_omap snd]; intros H.
    all: first
      [ by apply list_elem_of_lookup; exists 3
      | exfalso; repeat (apply elem_of_cons in H as [H|H]; [discriminate|]);
        by apply elem_of_nil in H ].
Qed.

(** X2. A run has a [complete] frame exactly when it announced all ten
    steps of the producer. *)
Theorem complete_iff_all_steps lib first json :
  (exists topics news posts ideas,
      complete_frame topics news posts ideas ∈ frames (POST lib first json).2)
  <-> progress_steps (POST lib first json).2 = producer_steps.
Proof.
  post_cases lib first json; cbv [frames progress_steps omap list_omap snd step_of data].
  all: split; [intros (t & n & p & i & H)|intros H].
  all: try discriminate H.
  all: try (exfalso; repeat (apply elem_of_cons in H as [H|H]; [discriminate|]);
            by apply elem_of_nil in H).
  all: try reflexivity.
  do 4 eexists. apply list_elem_of_lookup. by exists 10.
Qed.

(** X3. The arrays of a [complete] frame are those shown before in the
    progress events of the same run, whose messages give their lengths. *)
Theorem result_matches_progress lib first json topics news posts ideas :
  complete_frame topics news posts ideas ∈ frames (POST lib first json).2 ->
  let fs := frames (POST lib first json).2 in
  progress_frame "topics_analyzed"
    ("Identified " +:+ pretty (length topics) +:+ " main topics")
    (Some (Topics topics)) ∈ fs
  /\ progress_frame "news_fetched"
       ("Found " +:+ pretty (length news) +:+ " news articles") (Some (News news)) ∈ fs
  /\ progress_frame "reddit_searched"
       ("Found " +:+ pretty (length posts) +:+ " Reddit discussions")
       (Some (RedditPosts posts)) ∈ fs
  /\ progress_frame "ideas_generated" "Generated 5 video ideas"
       (Some (VideoIdeas ideas)) ∈ fs.
Proof.
  intros H fs. subst fs. revert H.
  post_cases lib first json; cbv [frames omap list_omap snd]; intros H.
  all: repeat (apply elem_of_cons in H as [H|H]; [try discriminate|]).
  all: try (by apply elem_of_nil in H).
  injection H as -> -> -> ->.
  repeat split; apply list_elem_of_lookup;
    [by exists 3|by exists 6|by exists 7|by exists 9].
Qed.

Lemma result_matches_progress_witness :
  progress_frame "news_fetched" "Found 0 news articles" (Some (News []))
  ∈ frames (POST mock NewsFirst (Resolved sample_body)).2.
Proof.
  apply (result_matches_progress mock NewsFirst (Resolved sample_body)
           ["Tech"; "AI"] [] [] [sample_idea "1"; sample_idea "2"]).
  apply list_elem_of_lookup. by exists 10.
Defined.


(** * Further properties of lib/youtube.ts *)

Lemma append_cons a s t : String a s +:+ t = String a (s +:+ t).
Proof. reflexivity. Qed.

Lemma append_nil_l s : "" +:+ s = s.
Proof. reflexivity. Qed.

Lemma span_word s : all_word (span s) = true.
Proof.
  induction s as [|c s IH]; [done|]. cbn [span].
  destruct (word_char c) eqn:Hc; [|done]. cbn [all_word]. by rewrite Hc.
Qed.

Lemma span_all_word s : all_word s = true -> span s = s.
Proof.
  induction s as [|c s IH]; [done|]. cbn [all_word span].
  intros [Hc Hs]%andb_true_iff. rewrite Hc. by rewrite IH.
Qed.

Lemma match_capture_shape lit s m :
  match_capture lit s = Some m -> m <> "" /\ all_word m = true.
Proof.
  induction s as [|c s IH]; cbn [match_capture].
  - destruct (strip_prefix lit "") as [rest|]; [|done].
    case_bool_decide as Hcap; [done|]. intros [= <-]. split; [done|apply span_word].
  - destruct (strip_prefix lit (String c s)) as [rest|]; [|exact IH].
    case_bool_decide as Hcap; [exact IH|]. intros [= <-]. split; [done|apply span_word].
Qed.

(** X5. An identifier extracted from a URL is never empty and is made of
    the characters [[a-zA-Z0-9_-]] only. *)
Theorem extracted_identifier_is_a_word url i :
  YouTube.extractChannelIdentifier url = Some i ->
  YouTube.value i <> "" /\ all_word (YouTube.value i) = true.
Proof.
  unfold YouTube.extractChannelIdentifier, YouTube.patterns.
  cbn [YouTube.first_match].
  repeat (destruct (match_capture _ url) as [m|] eqn:Hm;
          [ intros [= <-]; by apply match_capture_shape in Hm | clear Hm ]).
  done.
Qed.

Lemma extracted_identifier_is_a_word_witness :
  all_word "UC_x5-9" = true.
Proof.
  apply (extracted_identifier_is_a_word "https://www.youtube.com/channel/UC_x5-9?view=1"
           {| YouTube.kind := YouTube.Id; YouTube.value := "UC_x5-9" |}).
  reflexivity.
Defined.

Lemma match_capture_skip lit c s :
  strip_prefix lit (String c s) = None ->
  match_capture lit (String c s) = match_capture lit s.
Proof. intros H. cbn [match_capture]. by rewrite H. Qed.

Lemma match_capture_here lit s rest :
  strip_prefix lit s = Some rest -> span rest <> "" ->
  match_capture lit s = Some (span rest).
Proof.
  intros H Hspan. destruct s; cbn [match_capture]; rewrite H;
    by rewrite bool_decide_false.
Qed.

Lemma strip_prefix_word lit s rest :
  strip_prefix lit s = Some rest -> all_word s = true -> all_word lit = true.
Proof.
  revert s. induction lit as [|a lit IH]; intros s; [done|].
  destruct s as [|b s]; cbn [strip_prefix]; [done|].
  case_bool_decide as Hab; [|done]. subst b.
  intros H [Ha Hs]%andb_true_iff. cbn [all_word]. rewrite Ha. by eapply IH.
Qed.

Lemma match_capture_word lit s :
  all_word lit = false -> all_word s = true -> match_capture lit s = None.
Proof.
  intros Hlit. induction s as [|c s IH]; intros Hs; cbn [match_capture].
  - destruct (strip_prefix lit "") as [rest|] eqn:H; [|done].
    apply strip_prefix_word in H; [congruence|done].
  - destruct (strip_prefix lit (String c s)) as [rest|] eqn:H.
    + apply strip_prefix_word in H; [congruence|done].
    + apply IH. by apply andb_true_iff in Hs as [_ Hs].
Qed.

Ltac skip_chars := repeat (rewrite match_capture_skip by reflexivity).

Ltac no_match :=
  rewrite !append_cons, append_nil_l; skip_chars;
  by apply match_capture_word.

Ltac match_here name :=
  rewrite !append_cons, append_nil_l; skip_chars;
  rewrite (match_capture_here _ _ name) by
    (first [reflexivity | by rewrite span_all_word]);
  by rewrite span_all_word.

(** X6. The four URL formats of the README are recognised for every
    non-empty name made of the characters [[a-zA-Z0-9_-]]: [@name] as a
    handle, [c/name] and [user/name] as a username, [channel/name] as an
    id. *)
Theorem documented_formats_recognised name :
  name <> "" -> all_word name = true ->
  YouTube.extractChannelIdentifier ("https://www.youtube.com/@" +:+ name)
  = Some {| YouTube.kind := YouTube.Handle; YouTube.value := name |}
  /\ YouTube.extractChannelIdentifier ("https://www.youtube.com/c/" +:+ name)
     = Some {| YouTube.kind := YouTube.Username; YouTube.value := name |}
  /\ YouTube.extractChannelIdentifier ("https://www.youtube.com/channel/" +:+ name)
     = Some {| YouTube.kind := YouTube.Id; YouTube.value := name |}
  /\ YouTube.extractChannelIdentifier ("https://www.youtube.com/user/" +:+ name)
     = Some {| YouTube.kind := YouTube.Username; YouTube.value := name |}.
Proof.
  intros Hne Hw.
  unfold YouTube.extractChannelIdentifier, YouTube.patterns.
  cbn [YouTube.first_match].
  repeat split.
  - assert (match_capture "youtube.com/channel/" ("https://www.youtube.com/@" +:+ name) = None) as -> by no_match.
    assert (match_capture "youtube.com/c/" ("https://www.youtube.com/@" +:+ name) = None) as -> by no_match.
    assert (match_capture "youtube.com/user/" ("https://www.youtube.com/@" +:+ name) = None) as -> by no_match.
    assert (match_capture "youtube.com/@" ("https://www.youtube.com/@" +:+ name) = Some name) as -> by match_here name.
    done.
  - assert (match_capture "youtube.com/channel/" ("https://www.youtube.com/c/" +:+ name) = None) as -> by no_match.
    assert (match_capture "youtube.com/c/" ("https://www.youtube.com/c/" +:+ name) = Some name) as -> by match_here name.
    done.
  - assert (match_capture "youtube.com/channel/" ("https://www.youtube.com/channel/" +:+ name) = Some name) as -> by match_here name.
    done.
  - assert (match_capture "youtube.com/channel/" ("https://www.youtube.com/user/" +:+ name) = None) as -> by no_match.
    assert (match_capture "youtube.com/c/" ("https://www.youtube.com/user/" +:+ name) = None) as -> by no_match.
    assert (match_capture "youtube.com/user/" ("https://www.youtube.com/user/" +:+ name) = Some name) as -> by match_here name.
    done.
Qed.

Lemma documented_formats_recognised_witness :
  YouTube.extractChannelIdentifier "https://www.youtube.com/@example"
  = Some {| YouTube.kind := YouTube.Handle; YouTube.value := "example" |}.
Proof.
  apply (documented_formats_recognised "example"); [discriminate|reflexivity].
Defined.

(** X7. Every rejection of [fetchChannelVideos] is a plain [Error] whose
    message is one of five fixed texts or starts with
    [Failed to fetch videos: ]. *)
Theorem lookup_error_taxonomy w url e :
  YouTube.fetchChannelVideos w url = Rejected e ->
  response_status e = None
  /\ (message e ∈ lookup_messages
      \/ exists detail, message e = "Failed to fetch videos: " +:+ detail).
Proof.
  unfold YouTube.fetchChannelVideos. intros H.
  destruct (present (YouTube.YOUTUBE_API_KEY w)) eqn:Hkey; cbn [negb] in H.
  2:{ cbn in H. simplify_eq. split; [done|]. left. apply list_elem_of_lookup. by exists 0. }
  destruct (YouTube.extractChannelIdentifier url) as [identifier|].
  2:{ cbn in H. simplify_eq. split; [done|]. left. apply list_elem_of_lookup. by exists 1. }
  destruct (getChannelId_resolves w (YouTube.value identifier)
              (YouTube.kind identifier) Hkey) as [r Hr].
  rewrite Hr in H. unfold awaited, mbind, Result_bind, try_, settle in H.
  repeat (case_match; simplify_eq; try done).
  all: split; [done|].
  all: first
    [ right; by eexists
    | left; apply list_elem_of_lookup;
      first [by exists 2|by exists 3|by exists 4] ].
Qed.

Lemma lookup_error_taxonomy_witness :
  "Invalid YouTube channel URL" ∈ lookup_messages
  \/ exists detail, "Invalid YouTube channel URL" = "Failed to fetch videos: " +:+ detail.
Proof.
  apply (lookup_error_taxonomy youtube_one_video "https://example.com/@example"
           (Error "Invalid YouTube channel URL")).
  reflexivity.
Defined.

(** X8. For a [channel/] URL the answer to the channel request decides
    the error: status 403 gives the quota message, status 404 gives
    [Channel not found], and an accepted answer without items gives
    [Failed to fetch videos: Channel not found] (thrown inside the [try], it
    is wrapped by the [catch]). *)
Theorem channel_answer_decides_error w url cid :
  present (YouTube.YOUTUBE_API_KEY w) = true ->
  YouTube.extractChannelIdentifier url
  = Some {| YouTube.kind := YouTube.Id; YouTube.value := cid |} ->
  (forall b, YouTube.channels_contentDetails w cid = Answer 403 b ->
     YouTube.fetchChannelVideos w url
     = Rejected (Error "YouTube API quota exceeded or invalid API key"))
  /\ (forall b, YouTube.channels_contentDetails w cid = Answer 404 b ->
        YouTube.fetchChannelVideos w url = Rejected (Error "Channel not found"))
  /\ (forall st items,
        YouTube.channels_contentDetails w cid = Answer st (Json items) ->
        status_2xx st = true -> YouTube.first_item items = None ->
        YouTube.fetchChannelVideos w url
        = Rejected (Error "Failed to fetch videos: Channel not found")).
Proof.
  intros Hkey Hid. unfold YouTube.fetchChannelVideos.
  rewrite Hkey, Hid. cbn [negb YouTube.kind YouTube.value].
  rewrite bool_decide_true by done. cbn [negb mret Result_ret mbind Result_bind].
  repeat split.
  - intros b ->. reflexivity.
  - intros b ->. reflexivity.
  - intros st items -> Hst Hnone. unfold axios_get. rewrite Hst.
    cbn [mbind Result_bind body read]. by rewrite Hnone.
Qed.

Lemma channel_answer_decides_error_witness :
  YouTube.fetchChannelVideos quota_exceeded "https://www.youtube.com/channel/UC_x5"
  = Rejected (Error "YouTube API quota exceeded or invalid API key").
Proof.
  refine (proj1 (channel_answer_decides_error quota_exceeded
                   "https://www.youtube.com/channel/UC_x5" "UC_x5" _ _) Garbled _);
    reflexivity.
Defined.

(** X9. For a [channel/] URL the three lookups of [getChannelId] are not
    consulted: the result depends on the API key, the channel request and
    the playlist request only. *)
Theorem channel_url_skips_resolution w1 w2 url cid :
  YouTube.extractChannelIdentifier url
  = Some {| YouTube.kind := YouTube.Id; YouTube.value := cid |} ->
  YouTube.YOUTUBE_API_KEY w1 = YouTube.YOUTUBE_API_KEY w2 ->
  YouTube.channels_contentDetails w1 = YouTube.channels_contentDetails w2 ->
  YouTube.playlistItems w1 = YouTube.playlistItems w2 ->
  YouTube.fetchChannelVideos w1 url = YouTube.fetchChannelVideos w2 url.
Proof.
  intros Hid Hkey Hc Hp. unfold YouTube.fetchChannelVideos.
  rewrite Hid, Hkey. cbn [YouTube.kind YouTube.value].
  rewrite bool_decide_true by done. cbn [negb mret Result_ret mbind Result_bind].
  by rewrite Hc, Hp.
Qed.

(** X10. For a username or handle URL, when every lookup request fails,
    [getChannelId] swallows the failures and [fetchChannelVideos] rejects
    with [Could not resolve channel ID from URL]. *)
Theorem unresolved_when_lookups_fail w url i :
  present (YouTube.YOUTUBE_API_KEY w) = true ->
  YouTube.extractChannelIdentifier url = Some i ->
  YouTube.kind i <> YouTube.Id ->
  (forall x r, axios_get status_2xx (YouTube.channels_forUsername w x) <> Normal r) ->
  (forall x r, axios_get status_2xx (YouTube.channels_forHandle w x) <> Normal r) ->
  (forall x r, axios_get status_2xx (YouTube.search_channels w x) <> Normal r) ->
  YouTube.fetchChannelVideos w url
  = Rejected (Error "Could not resolve channel ID from URL").
Proof.
  intros Hkey Hi Hkind Hu Hh Hs. unfold YouTube.fetchChannelVideos.
  rewrite Hkey, Hi. cbn [negb]. rewrite bool_decide_false by done. cbn [negb].
  assert (YouTube.getChannelId w (YouTube.value i) (YouTube.kind i) = Resolved None) as ->.
  { unfold YouTube.getChannelId. rewrite Hkey. cbn [negb].
    destruct (YouTube.kind i); [done| |].
    - rewrite (bool_decide_true (YouTube.Username = YouTube.Username)) by done.
      rewrite (bool_decide_false (YouTube.Username = YouTube.Handle)) by done.
      destruct (present (Some (YouTube.value i))); [|reflexivity].
      cbn [default].
      destruct (axios_get status_2xx (YouTube.channels_forUsername w _))
        as [r|e] eqn:Hget; [by apply Hu in Hget|reflexivity].
    - rewrite (bool_decide_false (YouTube.Handle = YouTube.Username)) by done.
      rewrite (bool_decide_true (YouTube.Handle = YouTube.Handle)) by done.
      cbn [present mbind Result_bind mret Result_ret default].
      destruct (negb _); [|reflexivity].
      unfold YouTube.by_handle.
      destruct (axios_get status_2xx (YouTube.channels_forHandle w _))
        as [r|e] eqn:Hget; [by apply Hh in Hget|].
      cbn [mbind Result_bind try_ mret Result_ret].
      destruct (axios_get status_2xx (YouTube.search_channels w _))
        as [r|e'] eqn:Hget'; [by apply Hs in Hget'|reflexivity]. }
  reflexivity.
Qed.

Lemma channel_url_skips_resolution_witness :
  YouTube.fetchChannelVideos youtube_one_video "https://www.youtube.com/channel/UC1"
  = YouTube.fetchChannelVideos youtube_lookups_down "https://www.youtube.com/channel/UC1".
Proof.
  apply (channel_url_skips_resolution youtube_one_video youtube_lookups_down
           "https://www.youtube.com/channel/UC1" "UC1"); reflexivity.
Defined.

Lemma unresolved_when_lookups_fail_witness :
  YouTube.fetchChannelVideos youtube_lookups_down "https://www.youtube.com/@example"
  = Rejected (Error "Could not resolve channel ID from URL").
Proof.
  apply (unresolved_when_lookups_fail youtube_lookups_down
           "https://www.youtube.com/@example"
           {| YouTube.kind := YouTube.Handle; YouTube.value := "example" |});
    try reflexivity; try discriminate.
Defined.

Lemma map_items_videos entries videos :
  YouTube.map_items entries = Normal videos ->
  Forall2 video_of_item videos entries.
Proof.
  revert videos. induction entries as [|item entries IH]; intros videos;
    cbn [YouTube.map_items].
  - intros [= <-]. constructor.
  - unfold YouTube.to_video, member, mbind, Result_bind.
    destruct item as [[s|]]; cbn [YouTube.item_snippet]; [|done].
    destruct (YouTube.resourceId s) as [vid|] eqn:Hvid; [|done].
    destruct (YouTube.thumbnails s) as [th|]; [|done].
    destruct (YouTube.map_items entries) as [vs|e]; [|by repeat case_match].
    intros H.
    assert (exists v, videos = v :: vs /\ id v = vid /\ title v = YouTube.video_title s
                      /\ description v = YouTube.video_description s
                      /\ publishedAt v = YouTube.video_publishedAt s) as (v & -> & Hv).
    { unfold mret, Result_ret in H.
      repeat case_match; simplify_eq; eexists; repeat split. }
    constructor; [|by apply IH].
    exists s. destruct Hv as (<- & -> & -> & ->). by rewrite Hvid.
Qed.

(** X11. When [fetchChannelVideos] resolves, its videos are the items of
    an accepted playlist answer, one video per item and in the same order,
    with the item's id, title, description and date. *)
Theorem videos_are_the_playlist_items w url videos :
  YouTube.fetchChannelVideos w url = Resolved videos ->
  exists playlistId st entries,
    YouTube.playlistItems w playlistId = Answer st (Json (Some entries))
    /\ status_2xx st = true
    /\ Forall2 video_of_item videos entries.
Proof.
  unfold YouTube.fetchChannelVideos. intros H.
  destruct (negb (present (YouTube.YOUTUBE_API_KEY w))); [done|].
  destruct (YouTube.extractChannelIdentifier url) as [i|]; [|done].
  unfold mbind, Result_bind, mret, Result_ret, try_, settle, read, member,
    axios_get in H.
  repeat (case_match; simplify_eq; try done).
  all: cbn [body] in *; simplify_eq.
  all: match goal with
       | Hp : YouTube.playlistItems _ ?u = Answer ?st (Json (Some ?es)),
         Hm : YouTube.map_items ?es = Normal _ |- _ =>
           exists u, st, es; repeat split; [exact Hp|done|by eapply map_items_videos]
       end.
Qed.

Lemma videos_are_the_playlist_items_witness :
  exists playlistId st entries,
    YouTube.playlistItems youtube_one_video playlistId = Answer st (Json (Some entries))
    /\ status_2xx st = true
    /\ length entries = 1.
Proof.
  destruct (videos_are_the_playlist_items youtube_one_video
              "https://www.youtube.com/@example"
              [ {| id := "v1"; title := "First video"; description := "About it";
                   publishedAt := "2024-01-01T00:00:00Z";
                   thumbnail := "https://i.ytimg.com/v1.jpg" |} ] eq_refl)
    as (u & st & entries & Hp & Hst & Hall).
  exists u, st, entries. repeat split; [exact Hp|exact Hst|].
  apply Forall2_length in Hall. by rewrite <- Hall.
Defined.

(** * Further properties of lib/news.ts *)

(** X12. [fetchRelevantNews] resolves for every upstream behaviour, to
    at most 5 articles, each with a non-empty title, URL and source; without
    an API key it resolves to the empty list. *)
Theorem news_at_most_five_and_complete w topics :
  exists news,
    NewsApi.fetchRelevantNews w topics = Resolved news
    /\ length news <= 5
    /\ Forall (fun a => news_title a <> "" /\ news_url a <> "" /\ source a <> "") news
    /\ (present (NewsApi.NEWS_API_KEY w) = false -> news = []).
Proof.
  unfold NewsApi.fetchRelevantNews.
  destruct (present (NewsApi.NEWS_API_KEY w)); cbn [negb].
  2:{ exists []. repeat split; [simpl; lia|constructor]. }
  set (mainTopic := or_else _ _).
  destruct (axios_get status_2xx (NewsApi.everything w mainTopic)) as [r|e].
  2:{ exists []. repeat split; [simpl; lia|constructor]. }
  cbn [mbind Result_bind].
  destruct (read "articles" (body r)) as [[l|]|e]; cbn [try_ settle mret Result_ret].
  - eexists. split; [reflexivity|]. split; [|split; [|done]].
    + rewrite length_fmap, length_take. lia.
    + apply Forall_fmap, Forall_take.
      apply Forall_forall. intros a [[Ht Hu]%andb_true_iff _]%list_elem_of_filter.
      unfold NewsApi.to_news, present in *. cbn.
      destruct (NewsApi.article_title a) as [t|]; [|done].
      destruct (NewsApi.article_url a) as [u|]; [|done].
      apply negb_true_iff, bool_decide_eq_false in Ht, Hu. cbn.
      repeat split; [done|done|].
      unfold or_else. case_bool_decide; done.
  - exists []. repeat split; [simpl; lia|constructor].
  - exists []. repeat split; [simpl; lia|constructor].
Qed.

Lemma news_at_most_five_and_complete_witness :
  NewsApi.fetchRelevantNews
    {| NewsApi.NEWS_API_KEY := None;
       NewsApi.everything := NewsApi.everything news_down |} ["Tech"] = Resolved [].
Proof.
  destruct (news_at_most_five_and_complete
              {| NewsApi.NEWS_API_KEY := None;
                 NewsApi.everything := NewsApi.everything news_down |} ["Tech"])
    as (news & Hnews & _ & _ & Hnil).
  rewrite Hnews. f_equal. apply Hnil. reflexivity.
Defined.

(** * Further properties of lib/reddit.ts *)

Lemma try_endpoints_counter w topic es st :
  es <> [] ->
  st.2 + 1 <= (Reddit.try_endpoints w topic es st).2 <= st.2 + length es.
Proof.
  revert st. induction es as [|endpoint es IH]; intros st Hne; [done|].
  cbn [Reddit.try_endpoints length].
  destruct (Reddit.attempt w st.2 endpoint topic) as [[posts|]|e].
  - cbn [snd]. lia.
  - destruct es as [|endpoint' es']; [cbn; lia|].
    specialize (IH (st.1, S st.2)). cbn [snd] in IH. specialize (IH ltac:(done)). lia.
  - destruct es as [|endpoint' es']; [cbn; lia|].
    specialize (IH (st.1, S st.2)). cbn [snd] in IH. specialize (IH ltac:(done)). lia.
Qed.

Lemma search_loop_counter w topics st :
  st.2 + length topics
  <= (foldl (fun st topic => Reddit.try_endpoints w topic Reddit.endpoints st) st topics).2
  <= st.2 + 2 * length topics.
Proof.
  revert st. induction topics as [|topic topics IH]; intros st; cbn [foldl length]; [lia|].
  pose proof (try_endpoints_counter w topic Reddit.endpoints st ltac:(done)) as H.
  cbn [Reddit.endpoints length] in H.
  specialize (IH (Reddit.try_endpoints w topic Reddit.endpoints st)). lia.
Qed.

Lemma legacy_loop_counter w topics st :
  (foldl (RedditLegacy.step w) st topics).2 = st.2 + length topics.
Proof.
  revert st. induction topics as [|topic topics IH]; intros st; cbn [foldl length]; [lia|].
  rewrite IH. unfold RedditLegacy.step.
  destruct (RedditLegacy.attempt w st.2 topic); cbn [snd]; lia.
Qed.

(** X14. One discussion search sends at least one request per searched
    topic and at most two, hence at most 6; the version that follows
    lib/news.ts sends exactly one per searched topic.  At most three topics
    are searched. *)
Theorem request_budget :
  (forall w topics,
      length topics `min` 3 <= reddit_requests w topics <= 2 * (length topics `min` 3)
      /\ reddit_requests w topics <= 6)
  /\ (forall w topics, legacy_requests w topics = length topics `min` 3).
Proof.
  split.
  - intros w topics. unfold reddit_requests.
    pose proof (search_loop_counter w (take 3 topics) ([], 0)) as H.
    rewrite length_take in H. cbn [snd] in H. lia.
  - intros w topics. unfold legacy_requests.
    rewrite legacy_loop_counter, length_take. cbn [snd]. lia.
Qed.

Lemma Map_set_fresh {V} k (v : V) m : k ∉ m.*1 -> Map_set k v m = m ++ [(k, v)].
Proof.
  induction m as [|[k' v'] m IH]; cbn [Map_set fmap list_fmap fst app]; [done|].
  intros [Hne H]%not_elem_of_cons. rewrite bool_decide_false by done.
  f_equal. by apply IH.
Qed.

Lemma Map_fold_fresh {V} (entries acc : list (string * V)) :
  NoDup (acc ++ entries).*1 ->
  foldl (fun m kv => Map_set kv.1 kv.2 m) acc entries = acc ++ entries.
Proof.
  revert acc. induction entries as [|[k v] entries IH]; intros acc Hnd; cbn [foldl].
  - by rewrite app_nil_r.
  - cbn [fst snd]. rewrite Map_set_fresh.
    + rewrite IH; rewrite <- app_assoc; [done|exact Hnd].
    + rewrite fmap_app in Hnd. apply NoDup_app in Hnd as (_ & Hdisj & _).
      intros Hin. apply (Hdisj k Hin). by left.
Qed.

Lemma entries_values (allPosts : list RedditPost) :
  ((fun post => (url post, post)) <$> allPosts).*2 = allPosts.
Proof. induction allPosts as [|p l IH]; [done|]. cbn. by rewrite IH. Qed.

Lemma entries_keys (allPosts : list RedditPost) :
  ((fun post => (url post, post)) <$> allPosts).*1 = url <$> allPosts.
Proof. induction allPosts as [|p l IH]; [done|]. cbn. by rewrite IH. Qed.

(** X15. Removing duplicates leaves a list of at most 10 posts with
    pairwise different URLs as it is. *)
Theorem uniquePosts_keeps_distinct allPosts :
  NoDup (url <$> allPosts) -> length allPosts <= 10 ->
  uniquePosts allPosts = allPosts.
Proof.
  intros Hnd Hlen. unfold uniquePosts, values, Map_new.
  rewrite Map_fold_fresh.
  - cbn [app]. rewrite entries_values. by apply take_ge.
  - cbn [app]. by rewrite entries_keys.
Qed.

Lemma uniquePosts_keeps_distinct_witness :
  uniquePosts [ {| post_title := "a"; url := "u1"; subreddit := "x" |};
                {| post_title := "b"; url := "u2"; subreddit := "x" |} ]
  = [ {| post_title := "a"; url := "u1"; subreddit := "x" |};
      {| post_title := "b"; url := "u2"; subreddit := "x" |} ].
Proof.
  apply uniquePosts_keeps_distinct.
  - apply NoDup_ListNoDup. repeat constructor; cbn; intuition discriminate.
  - cbn. lia.
Defined.

Lemma Map_set_elem {V} k0 (v0 : V) m k v :
  NoDup m.*1 ->
  (k, v) ∈ Map_set k0 v0 m -> (k, v) = (k0, v0) \/ ((k, v) ∈ m /\ k <> k0).
Proof.
  induction m as [|[k' v'] m IH]; cbn [Map_set fmap list_fmap fst].
  - intros _ ->%list_elem_of_singleton. by left.
  - intros [Hk' Hm]%NoDup_cons. case_bool_decide as Hk.
    + subst k'. intros [->|H]%elem_of_cons; [by left|].
      right. split; [by right|]. intros ->. apply Hk'.
      apply list_elem_of_fmap. by exists (k0, v).
    + intros [[= -> ->]|H]%elem_of_cons.
      * right. split; [by left|done].
      * destruct (IH Hm H) as [?|[? ?]]; [by left|right; split; [by right|done]].
Qed.

Lemma Map_fold_last {V} (entries acc : list (string * V)) k v :
  NoDup acc.*1 ->
  (k, v) ∈ foldl (fun m kv => Map_set kv.1 kv.2 m) acc entries ->
  ((k, v) ∈ acc /\ k ∉ entries.*1)
  \/ exists l1 l2, entries = l1 ++ (k, v) :: l2 /\ k ∉ l2.*1.
Proof.
  revert acc. induction entries as [|[k0 v0] entries IH]; intros acc Hacc; cbn [foldl].
  - intros H. left. split; [done|]. cbn. apply not_elem_of_nil.
  - cbn [fst snd]. intros H.
    destruct (IH _ (Map_set_NoDup k0 v0 acc Hacc) H) as [[Hin Hout]|(l1 & l2 & -> & Hout)].
    + apply (Map_set_elem _ _ _ _ _ Hacc) in Hin as [[= -> ->]|[Hin Hne]].
      * right. by exists [], entries.
      * left. split; [done|]. cbn. by apply not_elem_of_cons.
    + right. by exists ((k0, v0) :: l1), l2.
Qed.

(** X16. Every post that is kept is the last post with its URL in the
    collected list. *)
Theorem uniquePosts_last_duplicate_wins allPosts p :
  p ∈ uniquePosts allPosts ->
  exists l1 l2, allPosts = l1 ++ p :: l2 /\ url p ∉ url <$> l2.
Proof.
  unfold uniquePosts, values. intros Hin. apply subseteq_take in Hin.
  apply list_elem_of_fmap in Hin as ([k q] & -> & Hin). cbn [snd].
  unfold Map_new in Hin.
  apply Map_fold_last in Hin as [[Hin _]|(l1 & l2 & Heq & Hout)];
    [by apply elem_of_nil in Hin| |constructor].
  apply fmap_app_inv in Heq as (a1 & a2 & -> & Heq & ->).
  destruct a2 as [|p' a2]; [done|]. cbn in Heq. injection Heq as -> -> ->.
  exists a1, a2. split; [done|]. by rewrite <- entries_keys.
Qed.

Lemma uniquePosts_last_duplicate_wins_witness :
  exists l1 l2,
    [ {| post_title := "a"; url := "u1"; subreddit := "x" |};
      {| post_title := "b"; url := "u2"; subreddit := "x" |};
      {| post_title := "c"; url := "u1"; subreddit := "x" |} ]
    = l1 ++ {| post_title := "c"; url := "u1"; subreddit := "x" |} :: l2
    /\ "u1" ∉ url <$> l2.
Proof.
  apply (uniquePosts_last_duplicate_wins
           [ {| post_title := "a"; url := "u1"; subreddit := "x" |};
             {| post_title := "b"; url := "u2"; subreddit := "x" |};
             {| post_title := "c"; url := "u1"; subreddit := "x" |} ]
           {| post_title := "c"; url := "u1"; subreddit := "x" |}).
  apply list_elem_of_lookup. by exists 0.
Defined.

(** * Properties of lib/openai.ts *)

Example keywords_of_titles :
  OpenAIApi.analyzeTopics openai_down
    [titled "How to LEARN  Python quickly"; titled "Python	tricks and learn more"]
  = Resolved [JString "learn"; JString "python"; JString "quickly"; JString "tricks"].
Proof. reflexivity. Qed.

Example split_spaces_edges :
  split_spaces false " a  b " = [""; "a"; "b"; ""] /\ split_spaces false "" = [""].
Proof. split; reflexivity. Qed.










(** X19. From a parsed answer [analyzeTopics] returns the array under
    [topics], or the answer itself when it is an array; for any other
    readable answer it returns the empty list, not the fallback keywords. *)
Theorem topics_reply_shapes w videos v :
  OpenAIApi.topics_reply w videos = OpenAIApi.Parsed v ->
  (forall l, destructure "topics" v = Normal (JArray l) ->
     OpenAIApi.analyzeTopics w videos = Resolved l)
  /\ (forall l, v = JArray l -> OpenAIApi.analyzeTopics w videos = Resolved l)
  /\ (forall t, destructure "topics" v = Normal t -> isArray t = false ->
        isArray v = false -> OpenAIApi.analyzeTopics w videos = Resolved []).
Proof.
  intros Hv. unfold OpenAIApi.analyzeTopics. rewrite Hv.
  cbn [OpenAIApi.parsed_content mbind Result_bind]. repeat split.
  - intros l ->. reflexivity.
  - intros l ->. reflexivity.
  - intros t -> Ht Hnv. cbn [mbind Result_bind try_ mret Result_ret settle].
    destruct (truthy t); [by rewrite Ht|]. by rewrite Hnv.
Qed.

Lemma topics_reply_shapes_witness :
  OpenAIApi.analyzeTopics openai_off_format [titled "How to learn Python quickly"]
  = Resolved [].
Proof.
  refine (proj2 (proj2 (topics_reply_shapes openai_off_format
                          [titled "How to learn Python quickly"]
                          (JObject [("themes", JArray [JString "Tech"])]) eq_refl))
            JUndefined _ _ _); reflexivity.
Defined.

(** X20. [generateVideoIdeas] resolves for every behaviour of OpenAI, to
    at most 5 ideas, and to at least one when there is a topic. *)
Theorem ideas_between_one_and_five w topics news posts titles :
  exists ideas,
    OpenAIApi.generateVideoIdeas w topics news posts titles = Resolved ideas
    /\ length ideas <= 5
    /\ (topics <> [] -> ideas <> []).
Proof.
  unfold OpenAIApi.generateVideoIdeas.
  assert (Hfb : length (OpenAIApi.fallback_idea <$> take 5 topics) <= 5
                /\ (topics <> [] -> OpenAIApi.fallback_idea <$> take 5 topics <> [])).
  { split; [rewrite length_fmap, length_take; lia|]. by destruct topics. }
  destruct (OpenAIApi.parsed_content _) as [v|e]; cbn [mbind Result_bind try_];
    [|by eexists].
  destruct (destructure "ideas" v) as [i|e]; cbn [mbind Result_bind try_];
    [|by eexists].
  destruct (negb _ || _) eqn:Hguard; cbn [try_ settle mret Result_ret]; [by eexists|].
  apply orb_false_iff in Hguard as [_ Hlen%bool_decide_eq_false].
  eexists. split; [reflexivity|]. split; [rewrite length_take; lia|].
  intros _. destruct (elements _); [done|done].
Qed.

Lemma ideas_between_one_and_five_witness :
  exists ideas,
    OpenAIApi.generateVideoIdeas openai_off_format ["Tech"; "AI"] [] [] []
    = Resolved ideas /\ ideas <> [].
Proof.
  destruct (ideas_between_one_and_five openai_off_format ["Tech"; "AI"] [] [] [])
    as (ideas & Hideas & _ & Hne).
  exists ideas. split; [exact Hideas|]. apply Hne. discriminate.
Defined.

(** * Properties of app/page.tsx *)

Lemma append_nil_r s : s +:+ "" = s.
Proof. induction s as [|c s IH]; [done|]. by rewrite append_cons, IH. Qed.

Lemma append_assoc s t u : (s +:+ t) +:+ u = s +:+ (t +:+ u).
Proof. induction s as [|c s IH]; [done|]. by rewrite !append_cons, IH. Qed.

Lemma split_lines_cons s : exists line rest, split_lines s = line :: rest.
Proof.
  induction s as [|c s (line & rest & IH)]; cbn [split_lines]; [by eexists _, _|].
  case_bool_decide; [by eexists _, _|]. rewrite IH. by eexists _, _.
Qed.

Lemma split_lines_prefix cur s :
  one_line cur ->
  split_lines (cur +:+ s)
  = match split_lines s with line :: rest => (cur +:+ line) :: rest | [] => [] end.
Proof.
  unfold one_line. induction cur as [|c cur IH]; cbn [all_chars].
  - intros _. rewrite append_nil_l. by destruct (split_lines s).
  - intros [Hc Hcur]%andb_true_iff. rewrite append_cons. cbn [split_lines].
    apply negb_true_iff in Hc. rewrite Hc, (IH Hcur).
    by destruct (split_lines_cons s) as (line & rest & ->).
Qed.

Lemma split_lines_from cur s :
  match split_lines s with line :: rest => (cur +:+ line) :: rest | [] => [] end
  = (lines_from cur s).1 ++ [(lines_from cur s).2].
Proof.
  revert cur. induction s as [|c s IH]; intros cur; cbn [split_lines lines_from].
  - cbn. by rewrite append_nil_r.
  - case_bool_decide as Hc; cbn [fst snd].
    + rewrite append_nil_r. cbn [app]. f_equal. rewrite <- (IH "").
      by destruct (split_lines_cons s) as (line & rest & ->).
    + rewrite <- IH. destruct (split_lines_cons s) as (line & rest & ->).
      by rewrite append_assoc, append_cons, append_nil_l.
Qed.

Lemma lines_from_one_line cur s : one_line cur -> one_line (lines_from cur s).2.
Proof.
  revert cur. induction s as [|c s IH]; intros cur Hcur; cbn [lines_from]; [done|].
  case_bool_decide as Hc; cbn [snd]; [by apply IH|]. apply IH.
  unfold one_line in *. clear IH. induction cur as [|a cur IH]; cbn [all_chars] in *.
  - rewrite append_nil_l. cbn. by rewrite bool_decide_false.
  - apply andb_true_iff in Hcur as [Ha Hcur]. rewrite append_cons. cbn [all_chars].
    by rewrite Ha, IH.
Qed.

Lemma lines_from_app cur a b :
  lines_from cur (a +:+ b)
  = ((lines_from cur a).1 ++ (lines_from (lines_from cur a).2 b).1,
     (lines_from (lines_from cur a).2 b).2).
Proof.
  revert cur. induction a as [|c a IH]; intros cur.
  - rewrite append_nil_l. cbn. by destruct (lines_from cur b).
  - rewrite append_cons. cbn [lines_from]. case_bool_decide; cbn [fst snd].
    + by rewrite IH.
    + by rewrite IH.
Qed.

Section ReaderFacts.
Variable parse : string -> option Frame.

Lemma on_chunk_lines st buffer chunk :
  one_line buffer ->
  Page.on_chunk parse (st, buffer) chunk
  = (foldl (Page.on_line parse) st (lines_from buffer chunk).1,
     (lines_from buffer chunk).2).
Proof.
  intros Hb. unfold Page.on_chunk. cbn [fst snd].
  rewrite (split_lines_prefix _ _ Hb), split_lines_from.
  by rewrite removelast_last, last_snoc.
Qed.

Lemma on_chunks_lines chunks st buffer :
  one_line buffer ->
  foldl (Page.on_chunk parse) (st, buffer) chunks
  = (foldl (Page.on_line parse) st (lines_from buffer (received chunks)).1,
     (lines_from buffer (received chunks)).2).
Proof.
  revert st buffer. induction chunks as [|chunk chunks IH]; intros st buffer Hb.
  - reflexivity.
  - cbn [foldl received foldr]. rewrite on_chunk_lines by done.
    rewrite IH by by apply lines_from_one_line.
    rewrite lines_from_app. cbn [fst snd]. by rewrite foldl_app.
Qed.

Lemma lines_from_one_line_text cur json rest :
  one_line json -> lines_from cur (json +:+ rest) = lines_from (cur +:+ json) rest.
Proof.
  unfold one_line. revert cur. induction json as [|c json IH]; intros cur; cbn [all_chars].
  - intros _. by rewrite append_nil_l, append_nil_r.
  - intros [Hc Hj]%andb_true_iff. apply negb_true_iff in Hc.
    rewrite append_cons. cbn [lines_from]. rewrite Hc, (IH _ Hj).
    by rewrite append_assoc, append_cons, append_nil_l.
Qed.

Lemma on_lines_sent jsons st :
  Forall one_line jsons ->
  foldl (Page.on_line parse) st (lines_from "" (sent jsons)).1
  = foldl (on_json parse) st jsons
  /\ (lines_from "" (sent jsons)).2 = "".
Proof.
  intros Hall. revert st. induction Hall as [|json jsons Hj Hall IH]; intros st.
  - done.
  - cbn [sent foldr foldl]. unfold sse_message.
    rewrite !append_assoc.
    rewrite (lines_from_one_line_text "" "data: ") by done.
    rewrite (lines_from_one_line_text _ json) by done.
    rewrite !append_cons, append_nil_l. cbn [lines_from].
    rewrite !bool_decide_true by done. cbn [fst snd foldl].
    destruct (IH (on_json parse st json)) as [IH1 IH2]. split; [|exact IH2].
    rewrite <- IH1. f_equal.
Qed.

(** X21. However the body is cut into chunks, reading the text of a
    sequence of [sendSSE] messages (each JSON text on one line) handles
    exactly these JSON texts, in order, and leaves the buffer empty. *)
Theorem reading_ignores_chunking chunks jsons st :
  Forall one_line jsons ->
  received chunks = sent jsons ->
  foldl (Page.on_chunk parse) (st, "") chunks = (foldl (on_json parse) st jsons, "").
Proof.
  intros Hall Heq. rewrite on_chunks_lines by done. rewrite Heq.
  destruct (on_lines_sent jsons st Hall) as [-> ->]. done.
Qed.

End ReaderFacts.

Lemma reading_ignores_chunking_witness :
  foldl (Page.on_chunk sample_parse) (Page.started, "") sample_chunks
  = (foldl (on_json sample_parse) Page.started ["progress:fetching_videos"; "error:"], "").
Proof.
  apply reading_ignores_chunking.
  - repeat constructor.
  - reflexivity.
Defined.

Lemma wire_sent stringify r : wire stringify r = sent (stringify <$> frames r).
Proof.
  unfold wire, sent. induction (frames r) as [|f fs IH]; [done|].
  cbn [foldr fmap list_fmap]. by rewrite IH.
Qed.

Lemma on_json_frames parse stringify fs st :
  Forall (fun f => parse (stringify f) = Some f) fs ->
  foldl (on_json parse) st (stringify <$> fs) = foldl (fun st f => Page.on_frame f st) st fs.
Proof.
  intros Hall. revert st. induction Hall as [|f fs Hf Hall IH]; intros st; [done|].
  cbn [fmap list_fmap foldl]. rewrite IH. unfold on_json. by rewrite Hf.
Qed.

(** X22. The page after a run of the handler, for any chunking of its
    text: the progress list is the seeded [starting] entry, still not
    completed, followed by the announced steps, all completed; a [complete]
    frame gives the result and ends the loading; an [error] frame sets neither
    an error nor a result and leaves the page loading. *)
Theorem page_after_run parse stringify lib first json url chunks st0 :
  blank url = false ->
  Forall (fun f => one_line (stringify f) /\ parse (stringify f) = Some f)
    (frames (POST lib first json).2) ->
  received chunks = wire stringify (POST lib first json).2 ->
  let st := Page.handleSubmit parse url (Page.Body chunks None) st0 in
  Page.step <$> Page.progress st = "starting" :: progress_steps (POST lib first json).2
  /\ (fun e => completed (Page.shown e)) <$> Page.progress st
     = false :: ((fun _ => true) <$> progress_steps (POST lib first json).2)
  /\ Page.error st = None
  /\ ((exists topics news posts ideas,
          complete_frame topics news posts ideas ∈ frames (POST lib first json).2
          /\ Page.result st = Some (PipelineResult topics news posts ideas)
          /\ Page.loading st = false)
      \/ (exists msg,
             error_frame msg ∈ frames (POST lib first json).2
             /\ Page.result st = None /\ Page.loading st = true)).
Proof.
  intros Hurl Hall Hrecv st.
  assert (Hst : st = foldl (fun st f => Page.on_frame f st) Page.started
                       (frames (POST lib first json).2)).
  { subst st. unfold Page.handleSubmit. rewrite Hurl.
    rewrite wire_sent in Hrecv.
    rewrite (reading_ignores_chunking parse chunks (stringify <$> frames (POST lib first json).2)).
    - cbn [fst]. apply on_json_frames. eapply Forall_impl; [exact Hall|]. by intros f [_ ?].
    - apply Forall_fmap. eapply Forall_impl; [exact Hall|]. by intros f [? _].
    - exact Hrecv. }
  clearbody st. subst st. clear Hall Hrecv.
  post_cases lib first json.
  all: cbv [frames progress_steps omap list_omap snd].
  all: split; [by vm_compute|split; [by vm_compute|split; [by vm_compute|]]].
  all: first
    [ left; do 4 eexists; split;
      [ apply list_elem_of_lookup; by exists 10 | split; by vm_compute ]
    | right; eexists; split;
      [ repeat first [ apply list_elem_of_here | apply list_elem_of_further ]
      | split; by vm_compute ] ].
Qed.

Lemma page_after_run_witness :
  let st := Page.handleSubmit sample_parse "https://www.youtube.com/@example"
              (Page.Body sample_chunks None) Page.started in
  Page.step <$> Page.progress st = ["starting"; "fetching_videos"]
  /\ Page.error st = None /\ Page.result st = None /\ Page.loading st = true.
Proof.
  destruct (page_after_run sample_parse sample_stringify mock_no_videos NewsFirst
              (Resolved sample_body) "https://www.youtube.com/@example"
              sample_chunks Page.started) as (Hsteps & _ & Herr & Hend).
  - reflexivity.
  - repeat constructor.
  - reflexivity.
  - split; [exact Hsteps|]. split; [exact Herr|].
    destruct Hend as [(t & n & p & i & Hin & _)|(msg & _ & Hres & Hload)]; [|done].
    exfalso. vm_compute in Hin.
    repeat (apply elem_of_cons in Hin as [Hin|Hin]; [discriminate|]).
    by apply elem_of_nil in Hin.
Defined.


Lemma insert_entry_perm e l : Page.insert_entry e l ≡ₚ e :: l.
Proof.
  induction l as [|e' l IH]; cbn [Page.insert_entry]; [done|].
  case_bool_decide; [done|]. rewrite IH. apply Permutation_swap.
Qed.

Lemma sort_perm l : Page.sort l ≡ₚ l.
Proof.
  induction l as [|e l IH]; [done|]. cbn [Page.sort foldr].
  rewrite insert_entry_perm. by constructor.
Qed.

Lemma insert_entry_order e l :
  in_table_order l -> in_table_order (Page.insert_entry e l).
Proof.
  unfold in_table_order. induction l as [|e' l IH]; cbn [Page.insert_entry].
  - intros _. cbn [fmap list_fmap]. apply SSorted_cons; [apply SSorted_nil|apply Forall_nil_2].
  - cbn [fmap list_fmap]. intros [Hl Hall]%StronglySorted_inv.
    fold (fmap (M:=list) Page.step l) in *. case_bool_decide as Hle.
    + cbn [fmap list_fmap]. constructor; [by constructor|].
      constructor; [exact Hle|]. eapply Forall_impl; [exact Hall|].
      intros x Hx. unfold rank in *. cbn beta in *. lia.
    + cbn [fmap list_fmap]. constructor; [by apply IH|].
      fold (fmap (M:=list) Page.step (Page.insert_entry e l)).
      rewrite insert_entry_perm. cbn [fmap list_fmap]. constructor; [|exact Hall].
      unfold rank. lia.
Qed.

Lemma sort_order l : in_table_order (Page.sort l).
Proof.
  induction l as [|e l IH]; [apply SSorted_nil|]. cbn [Page.sort foldr].
  by apply insert_entry_order.
Qed.

(** X23. After any progress event, for any list before it: the list is
    in the order of the step table; its steps are those before, with the new
    step added when it was not listed; listed steps stay pairwise different;
    and the entry of the step is completed and carries the new message. *)
Theorem progress_list_stays_ordered s msg d prev :
  let next := Page.on_progress s msg d prev in
  in_table_order next
  /\ Page.step <$> next ≡ₚ
       (if bool_decide (s ∈ Page.step <$> prev) then Page.step <$> prev
        else (Page.step <$> prev) ++ [s])
  /\ (NoDup (Page.step <$> prev) -> NoDup (Page.step <$> next))
  /\ (exists e, e ∈ next /\ Page.step e = s /\ completed (Page.shown e) = true
                /\ progress_message (Page.shown e) = msg).
Proof.
  intros next. subst next. unfold Page.on_progress, Page.findIndex.
  set (newStep := {| Page.shown := _; Page.entry_data := d |}).
  assert (Hperm :
    Page.step <$> match fst <$> list_find (fun p => Page.step p = s) prev with
                  | Some existing => Page.sort (<[existing:=newStep]> prev)
                  | None => Page.sort (prev ++ [newStep])
                  end
    ≡ₚ (if bool_decide (s ∈ Page.step <$> prev) then Page.step <$> prev
        else (Page.step <$> prev) ++ [s])).
  { destruct (list_find _ prev) as [[i p]|] eqn:Hfind; cbn [fmap option_fmap option_map fst].
    - apply list_find_Some in Hfind as (Hi & Hp & _).
      rewrite sort_perm, list_fmap_insert.
      rewrite list_insert_id by (by rewrite list_lookup_fmap, Hi; cbn; rewrite Hp).
      rewrite bool_decide_true; [done|].
      apply list_elem_of_fmap. exists p. split; [done|]. by eapply list_elem_of_lookup_2.
    - apply list_find_None in Hfind.
      rewrite sort_perm, fmap_app. cbn [fmap list_fmap].
      rewrite bool_decide_false; [done|].
      intros (p & Hp & Hin)%list_elem_of_fmap.
      rewrite Forall_forall in Hfind. by apply (Hfind p Hin). }
  split; [|split; [exact Hperm|split]].
  - destruct (fst <$> _); apply sort_order.
  - intros Hnd. rewrite Hperm. case_bool_decide as Hin; [done|].
    apply NoDup_app. split; [done|]. split; [|apply NoDup_singleton].
    intros x Hx ->%list_elem_of_singleton. done.
  - exists newStep. split; [|done].
    destruct (list_find _ prev) as [[i p]|] eqn:Hfind; cbn [fmap option_fmap option_map fst].
    + apply list_find_Some in Hfind as (Hi & _).
      rewrite sort_perm. eapply list_elem_of_lookup_2.
      apply list_lookup_insert_eq. by eapply lookup_lt_Some.
    + rewrite sort_perm. apply elem_of_app. right. by left.
Qed.

Lemma progress_list_stays_ordered_witness :
  in_table_order
    (Page.on_progress "news_fetched" "Found 0 news articles" None
       (Page.on_progress "reddit_searched" "Found 0 Reddit discussions" None
          (Page.progress Page.started)))
  /\ Page.step <$>
       Page.on_progress "news_fetched" "Found 0 news articles" None
         (Page.on_progress "reddit_searched" "Found 0 Reddit discussions" None
            (Page.progress Page.started))
     = ["starting"; "news_fetched"; "reddit_searched"].
Proof.
  split; [|reflexivity].
  apply (progress_list_stays_ordered "news_fetched" "Found 0 news articles" None).
Defined.




(** X13. When the first topic is not empty the news search asks about it
    alone: the other topics do not change the result. *)
Theorem news_asks_about_first_topic_only w topic rest :
  topic <> "" ->
  NewsApi.fetchRelevantNews w (topic :: rest) = NewsApi.fetchRelevantNews w [topic].
Proof.
  intros Hne. unfold NewsApi.fetchRelevantNews. cbn [head default].
  unfold or_else. by rewrite !bool_decide_false by done.
Qed.

Lemma news_asks_about_first_topic_only_witness :
  NewsApi.fetchRelevantNews news_down ["Tech"; "AI"]
  = NewsApi.fetchRelevantNews news_down ["Tech"].
Proof. apply news_asks_about_first_topic_only. discriminate. Defined.

(** X24. After [handleSubmit] with a non-blank URL, the page has stopped
    loading only if it has a result or an error, and it has an error only
    when the request or the reading of the body failed. *)
Theorem spinner_stops_with_an_outcome parse url fetched st0 :
  blank url = false ->
  let st := Page.handleSubmit parse url fetched st0 in
  (Page.loading st = false -> Page.result st <> None \/ Page.error st <> None)
  /\ (Page.error st <> None ->
      Page.loading st = false
      /\ (fetched = Page.NotOk \/ fetched = Page.NoBody
          \/ (exists e, fetched = Page.FetchFailed e)
          \/ exists chunks e, fetched = Page.Body chunks (Some e))).
Proof.
  intros Hurl st. subst st. unfold Page.handleSubmit. rewrite Hurl.
  destruct fetched as [e| | |chunks failure].
  - split; [by right|]. intros _. split; [done|]. right. right. left. by exists e.
  - split; [by right|]. intros _. split; [done|]. by left.
  - split; [by right|]. intros _. split; [done|]. right. by left.
  - assert (Hinv : forall cs acc,
               Page.error acc.1 = None ->
               (Page.loading acc.1 = false -> Page.result acc.1 <> None) ->
               Page.error (foldl (Page.on_chunk parse) acc cs).1 = None
               /\ (Page.loading (foldl (Page.on_chunk parse) acc cs).1 = false ->
                   Page.result (foldl (Page.on_chunk parse) acc cs).1 <> None)).
    { induction cs as [|c cs IH]; intros acc He Hl; [done|].
      cbn [foldl]. apply IH; unfold Page.on_chunk; cbn [fst].
      - clear IH Hl. revert He. generalize acc.1.
        induction (removelast _) as [|line lines IHl]; intros s He; [done|].
        cbn [foldl]. apply IHl. unfold Page.on_line, Page.on_frame.
        repeat case_match; done.
      - clear IH He. revert Hl. generalize acc.1.
        induction (removelast _) as [|line lines IHl]; intros s Hl; [done|].
        cbn [foldl]. apply IHl. unfold Page.on_line, Page.on_frame.
        repeat case_match; done. }
    destruct (Hinv chunks (Page.started, "")) as [He Hl]; [done|done|].
    destruct failure as [e|].
    + split; [by right|]. intros _. split; [done|]. right. right. right. by exists chunks, e.
    + split; [intros H; left; by apply Hl|]. by intros H.
Qed.

Lemma spinner_stops_with_an_outcome_witness :
  Page.loading (Page.handleSubmit sample_parse "https://www.youtube.com/@example"
                  Page.NotOk Page.started) = false
  /\ Page.error (Page.handleSubmit sample_parse "https://www.youtube.com/@example"
                   Page.NotOk Page.started) = Some "Failed to start analysis".
Proof.
  destruct (spinner_stops_with_an_outcome sample_parse "https://www.youtube.com/@example"
              Page.NotOk Page.started eq_refl) as [_ H].
  split; [|reflexivity]. apply H. discriminate.
Defined.

Lemma calls_in_fixed_order_witness :
  SearchRedditPosts ∈ calls (POST mock_news_throws NewsFirst (Resolved sample_body)).2.
Proof.
  apply (proj2 (calls_in_fixed_order mock_news_throws NewsFirst (Resolved sample_body))).
  apply list_elem_of_lookup. by exists 2.
Defined.

Lemma complete_iff_all_steps_witness :
  progress_steps (POST mock NewsFirst (Resolved sample_body)).2 = producer_steps.
Proof.
  apply (proj1 (complete_iff_all_steps mock NewsFirst (Resolved sample_body))).
  eexists _, _, _, _. apply list_elem_of_lookup. by exists 10.
Defined.

(** X25. With the library's [fetchChannelVideos], a missing API key and
    a URL without a channel pattern each end the run after the lookup with an
    [error] frame carrying the lookup's message. *)
Theorem lookup_failures_reach_the_user yt nw rd ai first body s :
  valid_url body s ->
  (present (YouTube.YOUTUBE_API_KEY yt) = false ->
   POST (imports yt nw rd ai) first (Resolved body)
   = (Normal (),
      [ Enqueued fetching_videos_frame; Invoked FetchChannelVideos;
        Enqueued (error_frame "YOUTUBE_API_KEY is not set"); Closed ]))
  /\ (present (YouTube.YOUTUBE_API_KEY yt) = true ->
      YouTube.extractChannelIdentifier s = None ->
      POST (imports yt nw rd ai) first (Resolved body)
      = (Normal (),
         [ Enqueued fetching_videos_frame; Invoked FetchChannelVideos;
           Enqueued (error_frame "Invalid YouTube channel URL"); Closed ])).
Proof.
  intros [Hurl Hs]. split.
  - intros Hkey.
    assert (Hrej : fetchChannelVideos (imports yt nw rd ai) s
                   = Rejected (Error "YOUTUBE_API_KEY is not set")).
    { cbn [imports fetchChannelVideos]. unfold YouTube.fetchChannelVideos.
      by rewrite Hkey. }
    post_cases (imports yt nw rd ai) first (Resolved body); tidy.
  - intros Hkey Hnone.
    assert (Hrej : fetchChannelVideos (imports yt nw rd ai) s
                   = Rejected (Error "Invalid YouTube channel URL")).
    { cbn [imports fetchChannelVideos]. unfold YouTube.fetchChannelVideos.
      by rewrite Hkey, Hnone. }
    post_cases (imports yt nw rd ai) first (Resolved body); tidy.
Qed.

Lemma lookup_failures_reach_the_user_witness :
  POST (imports youtube_one_video news_down reddit_down openai_mock) NewsFirst
    (Resolved (JObject [("url", JString "https://vimeo.com/example")]))
  = (Normal (),
     [ Enqueued fetching_videos_frame; Invoked FetchChannelVideos;
       Enqueued (error_frame "Invalid YouTube channel URL"); Closed ]).
Proof.
  refine (proj2 (lookup_failures_reach_the_user youtube_one_video news_down reddit_down
                   openai_mock NewsFirst
                   (JObject [("url", JString "https://vimeo.com/example")])
                   "https://vimeo.com/example" _) _ _);
    [split; [reflexivity|discriminate]|reflexivity|reflexivity].
Defined.
